(** * The Reef bot: a model of [scripts/agent-bot.py]

    The script is one polling loop ([run]) around one HTTP helper ([act]).
    JSON values and the dynamically typed operations that the script applies
    to them are modelled first; the two functions are then written as
    program trees over the effects they perform (HTTP POST, [time.sleep],
    [random.random], [random.randint], [log]), and run against an
    environment that supplies the answers. *)

From Stdlib Require Import ZArith List String Ascii Bool Lia Floats.
Import ListNotations.

Set Warnings "-inexact-float,-register-all".

Local Open Scope string_scope.
Local Open Scope list_scope.
Local Open Scope Z_scope.

(* ===================================================================== *)
(** ** JSON values, as [r.json()] produces them *)
(* ===================================================================== *)

Inductive json : Type :=
| JNull
| JBool (b : bool)
| JInt (n : Z)
| JFloat (x : float)
| JStr (s : string)
| JList (items : list json)
| JDict (fields : list (string * json)).

(** The exceptions the modelled operations can raise.  All of them derive
    from Python's [Exception]; [RequestError] stands for whatever
    [requests.post] or [r.json()] raises. *)
Inductive exn : Type :=
| TypeError
| AttributeError
| KeyError
| ValueError
| OverflowError
| RequestError.

Inductive result (A : Type) : Type :=
| Ok (a : A)
| Err (e : exn).
Arguments Ok {A} a.
Arguments Err {A} e.

Definition rbind {A B} (r : result A) (f : A -> result B) : result B :=
  match r with
  | Ok a => f a
  | Err e => Err e
  end.

Notation "x <~ r ;; k" := (rbind r (fun x => k))
  (at level 100, r at next level, right associativity).

(** *** Dictionaries *)

Fixpoint lookup (key : string) (fields : list (string * json)) : option json :=
  match fields with
  | [] => None
  | (k, v) :: rest => if String.eqb key k then Some v else lookup key rest
  end.

(** [d.get(key, default)]: only a dict has the method. *)
Definition dict_get (d : json) (key : string) (default : json) : result json :=
  match d with
  | JDict fields =>
      Ok (match lookup key fields with Some v => v | None => default end)
  | _ => Err AttributeError
  end.

(** [d[key]] with a string key. *)
Definition subscript (d : json) (key : string) : result json :=
  match d with
  | JDict fields =>
      match lookup key fields with Some v => Ok v | None => Err KeyError end
  | _ => Err TypeError
  end.

(** *** Truth values *)

Definition truthy (v : json) : bool :=
  match v with
  | JNull => false
  | JBool b => b
  | JInt n => negb (n =? 0)
  | JFloat x => negb (PrimFloat.eqb x 0%float)
  | JStr s => negb (String.eqb s "")
  | JList items => match items with [] => false | _ => true end
  | JDict fields => match fields with [] => false | _ => true end
  end.

(** *** Numbers

    Python's numbers as the script meets them: [int] (of which [bool] is a
    subtype) and [float]. *)

Inductive num : Type :=
| NInt (n : Z)
| NFloat (x : float).

Definition as_num (v : json) : option num :=
  match v with
  | JBool b => Some (NInt (if b then 1 else 0))
  | JInt n => Some (NInt n)
  | JFloat x => Some (NFloat x)
  | _ => None
  end.

Definition of_num (n : num) : json :=
  match n with
  | NInt z => JInt z
  | NFloat x => JFloat x
  end.

(** [float(n)] for an [int]: correctly rounded, [OverflowError] when the
    integer is beyond the range of a double. *)
Definition float_of_int (n : Z) : result float :=
  let x := SF2Prim (binary_normalize prec emax n 0 false) in
  if PrimFloat.is_infinity x then Err OverflowError else Ok x.

(** An [int] against a [float]: Python compares the exact values. *)
Definition compare_int_float (n : Z) (x : float) : option comparison :=
  match Prim2SF x with
  | S754_nan => None
  | S754_infinity neg => Some (if neg then Gt else Lt)
  | S754_zero _ => Some (n ?= 0)
  | S754_finite neg m e =>
      let v := if neg then Z.neg m else Z.pos m in
      Some (if 0 <=? e then n ?= v * 2 ^ e else n * 2 ^ (- e) ?= v)
  end.

Definition num_ltb (a b : num) : bool :=
  match a, b with
  | NInt x, NInt y => x <? y
  | NFloat x, NFloat y => PrimFloat.ltb x y
  | NInt x, NFloat y =>
      match compare_int_float x y with Some Lt => true | _ => false end
  | NFloat x, NInt y =>
      match compare_int_float y x with Some Gt => true | _ => false end
  end.

Definition num_eqb (a b : num) : bool :=
  match a, b with
  | NInt x, NInt y => x =? y
  | NFloat x, NFloat y => PrimFloat.eqb x y
  | NInt x, NFloat y | NFloat y, NInt x =>
      match compare_int_float x y with Some Eq => true | _ => false end
  end.

(** [a >= b] *)
Definition num_geb (a b : num) : bool :=
  match a, b with
  | NInt x, NInt y => y <=? x
  | NFloat x, NFloat y => PrimFloat.leb y x
  | NInt x, NFloat y =>
      match compare_int_float x y with Some (Gt | Eq) => true | _ => false end
  | NFloat x, NInt y =>
      match compare_int_float y x with Some (Lt | Eq) => true | _ => false end
  end.

(** [a == b] never raises; a number equals only a number here, the other
    operand being an [int] literal wherever the script uses it. *)
Definition py_eq_int (a : json) (n : Z) : bool :=
  match as_num a with
  | Some x => num_eqb x (NInt n)
  | None => false
  end.

(** [a == "literal"] and [a != "literal"] *)
Definition py_eq_str (a : json) (s : string) : bool :=
  match a with
  | JStr t => String.eqb t s
  | _ => false
  end.

Definition py_ne_str (a : json) (s : string) : bool := negb (py_eq_str a s).

(** [a < b], [a >= b]: ordering is defined between numbers only (the right
    operand is always a number in the script). *)
Definition py_lt (a b : json) : result bool :=
  match as_num a, as_num b with
  | Some x, Some y => Ok (num_ltb x y)
  | _, _ => Err TypeError
  end.

Definition py_ge (a b : json) : result bool :=
  match as_num a, as_num b with
  | Some x, Some y => Ok (num_geb x y)
  | _, _ => Err TypeError
  end.

(** [a + b] on numbers: exact on integers, a double as soon as one operand
    is a double. *)
Definition num_add (a b : num) : result num :=
  match a, b with
  | NInt x, NInt y => Ok (NInt (x + y))
  | NFloat x, NFloat y => Ok (NFloat (x + y)%float)
  | NInt x, NFloat y => fx <~ float_of_int x ;; Ok (NFloat (fx + y)%float)
  | NFloat x, NInt y => fy <~ float_of_int y ;; Ok (NFloat (x + fy)%float)
  end.

Definition py_add (a b : json) : result json :=
  match as_num a, as_num b with
  | Some x, Some y => r <~ num_add x y ;; Ok (of_num r)
  | _, _ => Err TypeError
  end.

(** [a * c] for a [float] literal [c] *)
Definition py_mul_float (a : json) (c : float) : result json :=
  match as_num a with
  | Some (NInt x) => fx <~ float_of_int x ;; Ok (JFloat (fx * c)%float)
  | Some (NFloat x) => Ok (JFloat (x * c)%float)
  | None => Err TypeError
  end.

(** *** Containers *)

(** [needle in s] on strings: [needle] occurs as a contiguous substring. *)
Fixpoint substring_of (needle s : string) : bool :=
  String.prefix needle s
  || match s with
     | EmptyString => false
     | String _ s' => substring_of needle s'
     end.

(** ["literal" in hay]: substring of a string, element of a list, key of a
    dict; anything else is not iterable. *)
Definition py_contains (needle : string) (hay : json) : result bool :=
  match hay with
  | JStr s => Ok (substring_of needle s)
  | JList items => Ok (existsb (fun v => py_eq_str v needle) items)
  | JDict fields => Ok (existsb (fun kv => String.eqb (fst kv) needle) fields)
  | _ => Err TypeError
  end.

Fixpoint take_string (n : nat) (s : string) : string :=
  match n, s with
  | S n', String c s' => String c (take_string n' s')
  | _, _ => EmptyString
  end.

(** [v[:n]]: strings and lists can be sliced. *)
Definition py_slice_to (v : json) (n : nat) : result json :=
  match v with
  | JStr s => Ok (JStr (take_string n s))
  | JList items => Ok (JList (firstn n items))
  | _ => Err TypeError
  end.

Fixpoint chars (s : string) : list json :=
  match s with
  | EmptyString => []
  | String c s' => JStr (String c EmptyString) :: chars s'
  end.

(** [for x in v]: the elements of a list, the keys of a dict, the
    characters of a string. *)
Definition py_iter (v : json) : result (list json) :=
  match v with
  | JList items => Ok items
  | JDict fields => Ok (map (fun kv => JStr (fst kv)) fields)
  | JStr s => Ok (chars s)
  | _ => Err TypeError
  end.

(* ===================================================================== *)
(** ** Effects and program trees *)
(* ===================================================================== *)

(** What [log] is given.  The rendering of the line (time stamp, glyphs) is
    left out; the values that go into it are kept. *)
Inductive message : Type :=
| MsgBotStart
| MsgCycle (c : Z)
| MsgActDone (ok : bool) (action narrative : json)
| MsgActFailed (e : exn)
| MsgState (hp mhp en men zone inv_count : json)
| MsgResting
| MsgFlee
| MsgRest (hp en : json)
| MsgSelling
| MsgGather (res : string)
| MsgMove (other : string)
| MsgQuest
| MsgStatus
| MsgWait (w : Z).

(** The calls through which the script touches the world.  [Act body] is a
    call of the script's own [act(body)], seen from [run]; [Post body] is
    [requests.post(API/action, json=body, ...)] followed by [r.json()]. *)
Inductive effect : Type :=
| Post (body : json)
| Act (body : json)
| Sleep (secs : num)
| RandomRandom
| RandInt (lo hi : Z)
| Log (m : message).

Definition answer (c : effect) : Type :=
  match c with
  | Post _ => result json
  | Act _ => json
  | RandomRandom => float
  | RandInt _ _ => Z
  | Sleep _ | Log _ => unit
  end.

Inductive prog (A : Type) : Type :=
| Ret (a : A)
| Throw (e : exn)
| Vis (c : effect) (k : answer c -> prog A).
Arguments Ret {A} a.
Arguments Throw {A} e.
Arguments Vis {A} c k.

Fixpoint bind {A B} (p : prog A) (f : A -> prog B) : prog B :=
  match p with
  | Ret a => f a
  | Throw e => Throw e
  | Vis c k => Vis c (fun x => bind (k x) f)
  end.

(** [try: p except Exception as e: h e] *)
Fixpoint catch {A} (p : prog A) (h : exn -> prog A) : prog A :=
  match p with
  | Ret a => Ret a
  | Throw e => h e
  | Vis c k => Vis c (fun x => catch (k x) h)
  end.

Definition lift {A} (r : result A) : prog A :=
  match r with
  | Ok a => Ret a
  | Err e => Throw e
  end.

Definition perform (c : effect) : prog (answer c) := Vis c (fun x => Ret x).

Notation "x <- p ;; k" := (bind p (fun x => k))
  (at level 100, p at next level, right associativity).
Notation "x <-! r ;; k" := (bind (lift r) (fun x => k))
  (at level 100, r at next level, right associativity).
Notation "p ;; k" := (bind p (fun _ => k))
  (at level 100, right associativity).

(** *** The environment

    The answers the world gives, one stream per kind of call; a call takes
    the head of its stream. *)
Record world : Type := {
  http : nat -> result json;
  acts : nat -> json;
  draws : nat -> float;
  picks : nat -> nat
}.

Definition tail {A} (f : nat -> A) : nat -> A := fun i => f (S i).

Definition skip_http (w : world) : world :=
  {| http := tail (http w); acts := acts w; draws := draws w; picks := picks w |}.
Definition skip_act (w : world) : world :=
  {| http := http w; acts := tail (acts w); draws := draws w; picks := picks w |}.
Definition skip_draw (w : world) : world :=
  {| http := http w; acts := acts w; draws := tail (draws w); picks := picks w |}.
Definition skip_pick (w : world) : world :=
  {| http := http w; acts := acts w; draws := draws w; picks := tail (picks w) |}.

(** [random.randint(lo, hi)] returns an integer [N] with [lo <= N <= hi]. *)
Definition randint_of (lo hi : Z) (raw : nat) : Z :=
  lo + Z.of_nat raw mod (hi - lo + 1).

Definition respond (c : effect) (w : world) : answer c * world :=
  match c return answer c * world with
  | Post _ => (http w 0%nat, skip_http w)
  | Act _ => (acts w 0%nat, skip_act w)
  | RandomRandom => (draws w 0%nat, skip_draw w)
  | RandInt lo hi => (randint_of lo hi (picks w 0%nat), skip_pick w)
  | Sleep _ => (tt, w)
  | Log _ => (tt, w)
  end.

(** Running a program: its outcome, the world left over and the calls it
    made, in order. *)
Fixpoint exec {A} (p : prog A) (w : world) : result A * world * list effect :=
  match p with
  | Ret a => (Ok a, w, [])
  | Throw e => (Err e, w, [])
  | Vis c k =>
      let (x, w') := respond c w in
      let '(r, w'', tr) := exec (k x) w' in
      (r, w'', c :: tr)
  end.

Definition outcome {A} (p : prog A) (w : world) : result A := fst (fst (exec p w)).
Definition calls {A} (p : prog A) (w : world) : list effect := snd (exec p w).
Definition world_after {A} (p : prog A) (w : world) : world := snd (fst (exec p w)).

(* ===================================================================== *)
(** ** [log] and [time.sleep] *)
(* ===================================================================== *)

Definition log (m : message) : prog unit := perform (Log m).

(** CPython keeps the delay as a signed 64-bit count of nanoseconds. *)
Definition max_sleep_seconds : Z := 9223372036.

(** The argument of [time.sleep(v)]: a number is required; a delay that
    does not fit is an [OverflowError], a negative one or a NaN a
    [ValueError]. *)
Definition sleep_arg (v : json) : result num :=
  match as_num v with
  | None => Err TypeError
  | Some (NInt n) =>
      if (n <? - max_sleep_seconds) || (max_sleep_seconds <? n) then Err OverflowError
      else if n <? 0 then Err ValueError
      else Ok (NInt n)
  | Some (NFloat x) =>
      if PrimFloat.is_nan x then Err ValueError
      else
        let ns := (x * 1e9)%float in
        if negb ((-0x1p63 <=? ns)%float && (ns <? 0x1p63)%float) then Err OverflowError
        else if (x <? 0)%float then Err ValueError
        else Ok (NFloat x)
  end.

Definition time_sleep (v : json) : prog unit :=
  secs <-! sleep_arg v ;;
  perform (Sleep secs).

(* ===================================================================== *)
(** ** [act]: one POST with a bounded retry *)
(* ===================================================================== *)

(** [requests.post(...)] followed by [r.json()]: the decoded reply, or the
    exception either of them raised. *)
Definition requests_post (body : json) : prog json :=
  r <- perform (Post body) ;; lift r.

(** [{"success": False}] *)
Definition failure : json := JDict [("success", JBool false)].

(** ["Rate limit" in d.get("error", "")] *)
Definition rate_limited (d : json) : result bool :=
  err <~ dict_get d "error" (JStr "") ;;
  py_contains "Rate limit" err.

(** One turn of the [for] loop of [act]: [Some d] when the turn executes
    [return d], [None] when the loop goes on ([continue], or the end of the
    [except] block). *)
Definition attempt (body : json) : prog (option json) :=
  catch
    (d <- requests_post body ;;
     limited <-! rate_limited d ;;
     if limited : bool then
       after <-! dict_get d "retryAfterSec" (JInt 3) ;;
       secs <-! py_add after (JInt 1) ;;
       time_sleep secs ;;
       Ret None
     else
       ok <-! dict_get d "success" JNull ;;
       action <-! subscript body "action" ;;
       narrative <-! dict_get d "narrative" (JStr "") ;;
       shown <-! py_slice_to narrative 70 ;;
       log (MsgActDone (truthy ok) action shown) ;;
       Ret (Some d))
    (fun e => log (MsgActFailed e) ;; time_sleep (JInt 5) ;; Ret None).

(** [def act(body, retries=3)]; the recursion is the [for _ in
    range(retries)] loop. *)
Fixpoint act (body : json) (retries : nat) : prog json :=
  match retries with
  | O => Ret failure
  | S remaining =>
      r <- attempt body ;;
      match r with
      | Some d => Ret d
      | None => act body remaining
      end
  end.

(** The default of the [retries] parameter; every call in [run] uses it. *)
Definition default_retries : nat := 3.

(* ===================================================================== *)
(** ** [run]: the polling loop *)
(* ===================================================================== *)

Definition action (name : string) : json := JDict [("action", JStr name)].

Definition action_on (name : string) (target : json) : json :=
  JDict [("action", JStr name); ("target", target)].

(** A call [act(body)] made by [run]. *)
Definition call_act (body : json) : prog json := perform (Act body).

(** [sum(i.get("quantity", 0) for i in inv)], as the left-to-right sum that
    starts from [0]. *)
Fixpoint sum_quantities (items : list json) (total : json) : result json :=
  match items with
  | [] => Ok total
  | i :: rest =>
      q <~ dict_get i "quantity" (JInt 0) ;;
      t <~ py_add total q ;;
      sum_quantities rest t
  end.

(** The local variables that the loop body sets from the reply [s] of the
    look ([a] is [agent] here). *)
Record reading : Type := {
  agent : json;
  hp : json;
  mhp : json;
  en : json;
  men : json;
  zone : json;
  inv : json;
  inv_count : json
}.

(** The assignments from [a = s.get("agent", {})] to [inv_count = ...]. *)
Definition read (s : json) : result reading :=
  a <~ dict_get s "agent" (JDict []) ;;
  hp <~ dict_get a "hp" (JInt 0) ;;
  mhp <~ dict_get a "maxHp" (JInt 100) ;;
  en <~ dict_get a "energy" (JInt 0) ;;
  men <~ dict_get a "maxEnergy" (JInt 50) ;;
  zone <~ dict_get a "location" (JStr "shallows") ;;
  inv <~ dict_get s "inventory" (JList []) ;;
  items <~ py_iter inv ;;
  inv_count <~ sum_quantities items (JInt 0) ;;
  Ok {| agent := a; hp := hp; mhp := mhp; en := en; men := men;
        zone := zone; inv := inv; inv_count := inv_count |}.

(** [s.get("success")] taken as a condition *)
Definition succeeded (s : json) : result bool :=
  ok <~ dict_get s "success" JNull ;;
  Ok (truthy ok).

(** [not a.get("isAlive", True) or hp == 0] *)
Definition is_dead (st : reading) : result bool :=
  alive <~ dict_get (agent st) "isAlive" (JBool true) ;;
  Ok (negb (truthy alive) || py_eq_int (hp st) 0).

(** ["IN COMBAT" in s.get("narrative", "")] *)
Definition in_combat (s : json) : result bool :=
  narr <~ dict_get s "narrative" (JStr "") ;;
  py_contains "IN COMBAT" narr.

(** [hp < mhp * 0.4 or en < 15] *)
Definition low_resources (st : reading) : result bool :=
  bound <~ py_mul_float (mhp st) 0.4%float ;;
  low_hp <~ py_lt (hp st) bound ;;
  if low_hp : bool then Ok true else py_lt (en st) (JInt 15).

(** [inv_count >= 8] *)
Definition inventory_full (st : reading) : result bool :=
  py_ge (inv_count st) (JInt 8).

(** The body of [for item in inv[:3]] over the items still to visit. *)
Fixpoint sell_each (items : list json) : prog unit :=
  match items with
  | [] => Ret tt
  | item :: rest =>
      target <-! subscript item "resource" ;;
      call_act (action_on "sell" target) ;;
      time_sleep (JInt 6) ;;
      sell_each rest
  end.

(** The [if inv_count >= 8] block, up to its [continue]. *)
Definition sell (st : reading) : prog unit :=
  log MsgSelling ;;
  (if py_ne_str (zone st) "trading_post" then
     call_act (action_on "move" (JStr "trading_post")) ;;
     time_sleep (JInt 6)
   else Ret tt) ;;
  first3 <-! py_slice_to (inv st) 3 ;;
  items <-! py_iter first3 ;;
  sell_each items.

(** The [if r < 0.4] block. *)
Definition gather (s : json) : prog unit :=
  narr <-! dict_get s "narrative" (JStr "") ;;
  seaweed <-! py_contains "Seaweed" narr ;;
  dollars <-! py_contains "Sand Dollars" narr ;;
  let res := (if seaweed : bool then ["seaweed"] else [])
             ++ (if dollars : bool then ["sand_dollars"] else []) in
  match res with
  | [] => Ret tt
  | first :: _ =>
      log (MsgGather first) ;;
      call_act (action_on "gather" (JStr first)) ;;
      time_sleep (JInt 6)
  end.

(** The [elif r < 0.7] block. *)
Definition move (st : reading) : prog unit :=
  let other := if py_eq_str (zone st) "shallows" then "trading_post" else "shallows" in
  log (MsgMove other) ;;
  call_act (action_on "move" (JStr other)) ;;
  time_sleep (JInt 6).

(** The [elif r < 0.85] block. *)
Definition quest : prog unit :=
  log MsgQuest ;;
  call_act (action_on "quest" (JStr "list")) ;;
  time_sleep (JInt 6).

(** The final [else] block. *)
Definition status : prog unit :=
  log MsgStatus ;;
  call_act (action "status") ;;
  time_sleep (JInt 6).

(** The [if r < 0.4: ... elif r < 0.7: ... elif r < 0.85: ... else: ...]
    statement for a draw [r]. *)
Definition random_branch (s : json) (st : reading) (r : float) : prog unit :=
  if (r <? 0.4)%float then gather s
  else if (r <? 0.7)%float then move st
  else if (r <? 0.85)%float then quest
  else status.

(** The last three lines of the loop body. *)
Definition wait : prog unit :=
  w <- perform (RandInt 10 20) ;;
  log (MsgWait w) ;;
  time_sleep (JInt w).

(** From [r = random.random()] to the end of the loop body. *)
Definition random_action (s : json) (st : reading) : prog unit :=
  r <- perform RandomRandom ;;
  random_branch s st r ;;
  wait.

(** The loop body after the success test: the health, combat, resource and
    inventory tests in the order of the script, each ending the pass
    ([continue]) when it applies. *)
Definition react (s : json) : prog unit :=
  st <-! read s ;;
  log (MsgState (hp st) (mhp st) (en st) (men st) (zone st) (inv_count st)) ;;
  dead <-! is_dead st ;;
  if dead : bool then
    log MsgResting ;;
    call_act (action "rest") ;;
    time_sleep (JInt 65)
  else
    combat <-! in_combat s ;;
    if combat : bool then
      log MsgFlee ;;
      call_act (action "flee") ;;
      time_sleep (JInt 6)
    else
      low <-! low_resources st ;;
      if low : bool then
        log (MsgRest (hp st) (en st)) ;;
        call_act (action "rest") ;;
        time_sleep (JInt 65)
      else
        full <-! inventory_full st ;;
        if full : bool then sell st
        else random_action s st.

(** One pass through the body of [while True], [c] being the counter after
    [c += 1]. *)
Definition cycle (c : Z) : prog unit :=
  log (MsgCycle c) ;;
  s <- call_act (action "look") ;;
  time_sleep (JInt 6) ;;
  ok <-! succeeded s ;;
  if negb ok then time_sleep (JInt 10)
  else react s.

(** The first [n] passes of [while True], entered with counter [c]. *)
Fixpoint loop (n : nat) (c : Z) : prog unit :=
  match n with
  | O => Ret tt
  | S n' => cycle (c + 1) ;; loop n' (c + 1)
  end.

(** [run()], cut after [n] passes: the loop itself has no exit. *)
Definition run (n : nat) : prog unit :=
  log MsgBotStart ;;
  loop n 0.

(* ===================================================================== *)
(** ** Reading a trace *)
(* ===================================================================== *)

(** The request bodies handed to [act], in order. *)
Fixpoint issued (tr : list effect) : list json :=
  match tr with
  | [] => []
  | Act body :: tr' => body :: issued tr'
  | _ :: tr' => issued tr'
  end.

(** The request bodies sent over HTTP, in order. *)
Fixpoint posted (tr : list effect) : list json :=
  match tr with
  | [] => []
  | Post body :: tr' => body :: posted tr'
  | _ :: tr' => posted tr'
  end.

(** The delays slept, in order. *)
Fixpoint slept (tr : list effect) : list num :=
  match tr with
  | [] => []
  | Sleep secs :: tr' => secs :: slept tr'
  | _ :: tr' => slept tr'
  end.

(** The number of calls of [random.random()]. *)
Fixpoint drawn (tr : list effect) : nat :=
  match tr with
  | [] => O
  | RandomRandom :: tr' => S (drawn tr')
  | _ :: tr' => drawn tr'
  end.

(** The actions that change the game, as opposed to the look that only
    queries it. *)
Definition game_action_names : list string :=
  ["rest"; "flee"; "move"; "sell"; "gather"; "quest"; "status"].

Definition is_game_action (body : json) : bool :=
  match subscript body "action" with
  | Ok (JStr name) => existsb (String.eqb name) game_action_names
  | _ => false
  end.

Definition game_actions (tr : list effect) : list json :=
  filter is_game_action (issued tr).

(** The targets of the sells that [sell_each] reaches: it stops at the
    first item without a ["resource"]. *)
Fixpoint sold (items : list json) : list json :=
  match items with
  | [] => []
  | item :: rest =>
      match subscript item "resource" with
      | Ok target => target :: sold rest
      | Err _ => []
      end
  end.

(** One sell and one pause per target reached. *)
Definition sell_calls (targets : list json) : list effect :=
  flat_map (fun t => [Act (action_on "sell" t); Sleep (NInt 6)]) targets.

(** The move that precedes the sells, when the bot is elsewhere. *)
Definition go_to_market (st : reading) : list effect :=
  if py_ne_str (zone st) "trading_post"
  then [Act (action_on "move" (JStr "trading_post")); Sleep (NInt 6)]
  else [].

(** The value of [res[0]] in the gather block, if [res] is not empty. *)
Definition first_resource (seaweed dollars : bool) : option string :=
  if seaweed then Some "seaweed"
  else if dollars then Some "sand_dollars"
  else None.

Definition gather_calls (seaweed dollars : bool) : list effect :=
  match first_resource seaweed dollars with
  | Some res =>
      [Log (MsgGather res); Act (action_on "gather" (JStr res)); Sleep (NInt 6)]
  | None => []
  end.

(** The zone the move block goes to. *)
Definition other_zone (st : reading) : string :=
  if py_eq_str (zone st) "shallows" then "trading_post" else "shallows".


(** The wait at the end of the pass, for the integer that [randint] gives. *)
Definition wait_calls (v : Z) : list effect :=
  [RandInt 10 20; Log (MsgWait v); Sleep (NInt v)].

(** What the random statement and the wait hand to [act]: nothing, or one
    of six requests. *)
Definition random_requests (st : reading) : list (list json) :=
  [ [];
    [action_on "gather" (JStr "seaweed")];
    [action_on "gather" (JStr "sand_dollars")];
    [action_on "move" (JStr (other_zone st))];
    [action_on "quest" (JStr "list")];
    [action "status"] ].


(** The argument that [act] gives to [time.sleep] after a rate-limited reply
    [d]: [d.get("retryAfterSec", 3) + 1], as [time.sleep] takes it. *)
Definition retry_delay (d : json) : result num :=
  after <~ dict_get d "retryAfterSec" (JInt 3) ;;
  secs <~ py_add after (JInt 1) ;;
  sleep_arg secs.

(** The line that [act] logs before it returns the reply [d]. *)
Definition report (body d : json) : result message :=
  ok <~ dict_get d "success" JNull ;;
  action <~ subscript body "action" ;;
  narrative <~ dict_get d "narrative" (JStr "") ;;
  shown <~ py_slice_to narrative 70 ;;
  Ok (MsgActDone (truthy ok) action shown).

(** What the [except] block does. *)
Definition backoff (e : exn) : list effect :=
  [Log (MsgActFailed e); Sleep (NInt 5)].

(** The reply to the look of a pass. *)
Definition look_reply (w : world) : json := acts w 0%nat.

(** Whether a turn of [act] that receives [r] returns it: the request and
    the decoding did not raise, the reply is not rate limited, and the line
    to log could be built. *)
Definition returns_reply (body : json) (r : result json) : bool :=
  match r with
  | Err _ => false
  | Ok d =>
      match rate_limited d, report body d with
      | Ok false, Ok _ => true
      | _, _ => false
      end
  end.

(** The two ways not to return that the retry is written for: the request
    raised, or the server answered with a rate limit. *)
Definition retried (r : result json) : Prop :=
  match r with
  | Err _ => True
  | Ok d => rate_limited d = Ok true
  end.

(* ===================================================================== *)
(** ** Sample replies and worlds *)
(* ===================================================================== *)

Definition item (resource : string) (quantity : Z) : json :=
  JDict [("resource", JStr resource); ("quantity", JInt quantity)].

Definition snapshot (hp mhp en : Z) (zone narrative : string)
    (inventory : list json) : json :=
  JDict [("success", JBool true);
         ("narrative", JStr narrative);
         ("agent", JDict [("hp", JInt hp); ("maxHp", JInt mhp);
                          ("energy", JInt en); ("maxEnergy", JInt 50);
                          ("location", JStr zone); ("isAlive", JBool true)]);
         ("inventory", JList inventory)].

(** The reading of a reply that can be read. *)
Definition reading_of (s : json) : reading :=
  match read s with
  | Ok st => st
  | Err _ =>
      {| agent := JNull; hp := JNull; mhp := JNull; en := JNull; men := JNull;
         zone := JNull; inv := JNull; inv_count := JNull |}
  end.

(** A reply that reports a rate limit and asks for [after] seconds. *)
Definition rate_limit_reply (after : json) : json :=
  JDict [("success", JBool false);
         ("error", JStr "Rate limit exceeded");
         ("retryAfterSec", after)].

(** A world in which the first [act] returns [s], every later one gives up,
    [random.random()] gives [r] and [randint] is fed [raw]. *)
Definition looking_at (s : json) (r : float) (raw : nat) : world :=
  {| http := fun _ => Err RequestError;
     acts := fun i => match i with O => s | S _ => failure end;
     draws := fun _ => r;
     picks := fun _ => raw |}.

(** A world in which the server answers the successive requests with [rs],
    and no longer answers after them. *)
Definition answering (rs : list (result json)) : world :=
  {| http := fun i => nth i rs (Err RequestError);
     acts := fun _ => failure;
     draws := fun _ => 0%float;
     picks := fun _ => O |}.

(* ===================================================================== *)
(** ** Auxiliary definitions for the further properties *)
(* ===================================================================== *)

(** [hp < mhp * 0.4] on two integers. *)
Definition low_hp (hp mhp : Z) : result bool :=
  bound <~ py_mul_float (JInt mhp) 0.4%float ;;
  py_lt (JInt hp) bound.

(** Whether an [int] is below a [float], as [<] decides it. *)
Definition int_below (n : Z) (x : float) : bool :=
  match compare_int_float n x with Some Lt => true | _ => false end.

(** For one [mhp]: the test holds at the largest [hp] with
    [5 * hp < 2 * mhp] and fails at the next integer. *)
Definition threshold_exact_at (mhp : Z) : bool :=
  let h := (2 * mhp - 1) / 5 in
  match low_hp h mhp, low_hp (h + 1) mhp with
  | Ok true, Ok false => true
  | _, _ => false
  end.

(** [f] holds at [z], [z + 1], ..., [z + count - 1]. *)
Fixpoint all_from (count : nat) (z : Z) (f : Z -> bool) : bool :=
  match count with
  | O => true
  | S k => f z && all_from k (z + 1) f
  end.

(** The exception that the [except] block of [act] catches in a turn that
    receives [r], if the turn raises at all: from the request, from the rate
    limit test, from the delay given to [time.sleep], or from the line to
    log. *)
Definition caught (body : json) (r : result json) : option exn :=
  match r with
  | Err e => Some e
  | Ok d =>
      match rate_limited d with
      | Err e => Some e
      | Ok true =>
          match retry_delay d with Err e => Some e | Ok _ => None end
      | Ok false =>
          match report body d with Err e => Some e | Ok _ => None end
      end
  end.

(** Every request that the loop body can hand to [act], but for the sells,
    whose target comes from the inventory. *)
Definition known_requests : list json :=
  [ action "look"; action "rest"; action "flee"; action "status";
    action_on "quest" (JStr "list");
    action_on "move" (JStr "trading_post");
    action_on "move" (JStr "shallows");
    action_on "gather" (JStr "seaweed");
    action_on "gather" (JStr "sand_dollars") ].

(** The sum of a list of integers. *)
Definition total (qs : list Z) : Z := fold_right Z.add 0 qs.

(** An inventory entry counts for [q]: it is a dict, with the integer [q]
    as ["quantity"], or without the key when [q] is 0. *)
Definition counts_for (entry : json) (q : Z) : Prop :=
  exists fields,
    entry = JDict fields
    /\ match lookup "quantity" fields with
       | Some v => v = JInt q
       | None => q = 0
       end.

(** The whole seconds of a delay, and those a trace pauses in all. *)
Definition whole_seconds (secs : num) : Z :=
  match secs with
  | NInt n => n
  | NFloat _ => 0
  end.

Definition paused (tr : list effect) : Z := total (map whole_seconds (slept tr)).

(** The numbers of the passes that a trace logs, in order. *)
Fixpoint passes (tr : list effect) : list Z :=
  match tr with
  | [] => []
  | Log (MsgCycle c) :: tr' => c :: passes tr'
  | _ :: tr' => passes tr'
  end.

(* ===================================================================== *)
(** ** [run] with its calls of [act] carried out *)
(* ===================================================================== *)

(** The program that stands behind a call, when the script defines it:
    [Act body] is [act(body)] with the default [retries]. *)
Definition callee (c : effect) : option (prog (answer c)) :=
  match c return option (prog (answer c)) with
  | Act body => Some (act body default_retries)
  | _ => None
  end.

(** A program of [run] in which every call of [act] is replaced by the body
    of [act]: what the script executes, down to the HTTP requests. *)
Fixpoint inline {A} (p : prog A) : prog A :=
  match p with
  | Ret a => Ret a
  | Throw e => Throw e
  | Vis c k =>
      match callee c with
      | Some q => bind q (fun x => inline (k x))
      | None => Vis c (fun x => inline (k x))
      end
  end.

(** A program that sends no HTTP request by itself. *)
Fixpoint no_post {A} (p : prog A) : Prop :=
  match p with
  | Ret _ => True
  | Throw _ => True
  | Vis c k =>
      match c with Post _ => False | _ => True end
      /\ forall x, no_post (k x)
  end.

(** A stream with one more element in front. *)
Definition cons_stream {A} (x : A) (f : nat -> A) : nat -> A :=
  fun i => match i with O => x | S j => f j end.

(** [expands tr1 tr2]: [tr2] is [tr1] with every call [Act body] replaced
    by the calls that [act(body)] makes in some world. *)
Inductive expands : list effect -> list effect -> Prop :=
| expands_nil : expands [] []
| expands_same (c : effect) (tr1 tr2 : list effect) :
    callee c = None ->
    expands tr1 tr2 ->
    expands (c :: tr1) (c :: tr2)
| expands_act (body : json) (w : world) (tr1 tr2 : list effect) :
    expands tr1 tr2 ->
    expands (Act body :: tr1) (calls (act body default_retries) w ++ tr2).

(** A world in which every request raises: the server cannot be reached. *)
Definition unreachable (w : world) : Prop :=
  forall i, exists e, http w i = Err e.

(* ===================================================================== *)
(** ** Running programs: general facts *)
(* ===================================================================== *)

Lemma exec_bind {A B} (p : prog A) (f : A -> prog B) (w : world) :
  exec (bind p f) w =
  match exec p w with
  | (Ok a, w', tr) => let '(r, w'', tr') := exec (f a) w' in (r, w'', tr ++ tr')
  | (Err e, w', tr) => (Err e, w', tr)
  end.
Proof.
  revert w; induction p as [a | e | c k IH]; intros w; simpl.
  - destruct (exec (f a) w) as [[r w'] tr]; reflexivity.
  - reflexivity.
  - destruct (respond c w) as [x w']. rewrite IH.
    destruct (exec (k x) w') as [[[a | e] w''] tr]; [|reflexivity].
    destruct (exec (f a) w'') as [[r w3] tr']; reflexivity.
Qed.

Lemma calls_bind {A B} (p : prog A) (f : A -> prog B) (w : world) :
  calls (bind p f) w =
  calls p w ++ match outcome p w with
               | Ok a => calls (f a) (world_after p w)
               | Err _ => []
               end.
Proof.
  unfold calls, outcome, world_after. rewrite exec_bind.
  destruct (exec p w) as [[[a | e] w'] tr]; simpl.
  - destruct (exec (f a) w') as [[r w''] tr']; reflexivity.
  - rewrite app_nil_r; reflexivity.
Qed.

Lemma outcome_bind {A B} (p : prog A) (f : A -> prog B) (w : world) :
  outcome (bind p f) w =
  match outcome p w with
  | Ok a => outcome (f a) (world_after p w)
  | Err e => Err e
  end.
Proof.
  unfold outcome, world_after. rewrite exec_bind.
  destruct (exec p w) as [[[a | e] w'] tr]; simpl; [|reflexivity].
  destruct (exec (f a) w') as [[r w''] tr']; reflexivity.
Qed.

Lemma issued_app (tr1 tr2 : list effect) :
  issued (tr1 ++ tr2) = issued tr1 ++ issued tr2.
Proof.
  induction tr1 as [| c tr1 IH]; simpl; [reflexivity|].
  destruct c; simpl; rewrite IH; reflexivity.
Qed.

Lemma posted_app (tr1 tr2 : list effect) :
  posted (tr1 ++ tr2) = posted tr1 ++ posted tr2.
Proof.
  induction tr1 as [| c tr1 IH]; simpl; [reflexivity|].
  destruct c; simpl; rewrite IH; reflexivity.
Qed.

(** *** Sleeping *)

Lemma time_sleep_int (n : Z) :
  0 <= n <= max_sleep_seconds ->
  time_sleep (JInt n) = perform (Sleep (NInt n)).
Proof.
  intros [Hlo Hhi]. unfold time_sleep, sleep_arg, as_num.
  assert (Hmax : 0 < max_sleep_seconds) by reflexivity.
  replace (n <? - max_sleep_seconds) with false by (symmetry; apply Z.ltb_ge; lia).
  replace (max_sleep_seconds <? n) with false by (symmetry; apply Z.ltb_ge; lia).
  replace (n <? 0) with false by (symmetry; apply Z.ltb_ge; lia).
  reflexivity.
Qed.

Lemma randint_of_range (lo hi : Z) (raw : nat) :
  lo <= hi -> lo <= randint_of lo hi raw <= hi.
Proof.
  intros H. unfold randint_of.
  pose proof (Z.mod_pos_bound (Z.of_nat raw) (hi - lo + 1)) as Hm. lia.
Qed.

Lemma exec_wait (w : world) :
  exec wait w =
  (Ok tt, skip_pick w,
   [RandInt 10 20;
    Log (MsgWait (randint_of 10 20 (picks w 0%nat)));
    Sleep (NInt (randint_of 10 20 (picks w 0%nat)))]).
Proof.
  unfold wait. cbn [bind perform exec respond log].
  rewrite time_sleep_int.
  - reflexivity.
  - pose proof (randint_of_range 10 20 (picks w 0%nat)) as H.
    unfold max_sleep_seconds. lia.
Qed.

(** *** Order on doubles *)








(** *** Stepping through a program *)

Lemma calls_vis {A} (c : effect) (k : answer c -> prog A) (w : world) :
  calls (Vis c k) w = c :: calls (k (fst (respond c w))) (snd (respond c w)).
Proof.
  unfold calls. cbn [exec]. destruct (respond c w) as [x w']. cbn [fst snd].
  destruct (exec (k x) w') as [[r w''] tr]. reflexivity.
Qed.

Lemma outcome_vis {A} (c : effect) (k : answer c -> prog A) (w : world) :
  outcome (Vis c k) w = outcome (k (fst (respond c w))) (snd (respond c w)).
Proof.
  unfold outcome. cbn [exec]. destruct (respond c w) as [x w']. cbn [fst snd].
  destruct (exec (k x) w') as [[r w''] tr]. reflexivity.
Qed.

Lemma world_after_vis {A} (c : effect) (k : answer c -> prog A) (w : world) :
  world_after (Vis c k) w = world_after (k (fst (respond c w))) (snd (respond c w)).
Proof.
  unfold world_after. cbn [exec]. destruct (respond c w) as [x w']. cbn [fst snd].
  destruct (exec (k x) w') as [[r w''] tr]. reflexivity.
Qed.

Lemma calls_ret {A} (a : A) (w : world) : calls (Ret a) w = [].
Proof. reflexivity. Qed.

Lemma calls_throw {A} (e : exn) (w : world) : calls (@Throw A e) w = [].
Proof. reflexivity. Qed.

Lemma outcome_ret {A} (a : A) (w : world) : outcome (Ret a) w = Ok a.
Proof. reflexivity. Qed.

Lemma outcome_throw {A} (e : exn) (w : world) : outcome (@Throw A e) w = Err e.
Proof. reflexivity. Qed.

Lemma fixed_sleep (n : Z) :
  0 <= n <= 65 -> time_sleep (JInt n) = perform (Sleep (NInt n)).
Proof.
  intros H. apply time_sleep_int. unfold max_sleep_seconds. lia.
Qed.

Ltac step :=
  first
    [ rewrite calls_vis; cbn [respond fst snd]
    | rewrite outcome_vis; cbn [respond fst snd]
    | rewrite calls_ret
    | rewrite calls_throw
    | rewrite outcome_ret
    | rewrite outcome_throw
    | rewrite fixed_sleep by lia
    | progress cbn [bind lift perform log call_act negb] ].

Ltac steps := repeat step.

(** The head of every pass: the line, the look and the pause after it. *)
Lemma calls_cycle (c : Z) (w : world) :
  calls (cycle c) w =
  Log (MsgCycle c) :: Act (action "look") :: Sleep (NInt 6) ::
  match succeeded (acts w 0%nat) with
  | Ok true => calls (react (acts w 0%nat)) (skip_act w)
  | Ok false => [Sleep (NInt 10)]
  | Err _ => []
  end.
Proof.
  unfold cycle. steps.
  destruct (succeeded (acts w 0%nat)) as [[|] | e]; steps; reflexivity.
Qed.

Lemma outcome_cycle (c : Z) (w : world) :
  outcome (cycle c) w =
  match succeeded (acts w 0%nat) with
  | Ok true => outcome (react (acts w 0%nat)) (skip_act w)
  | Ok false => Ok tt
  | Err e => Err e
  end.
Proof.
  unfold cycle. steps.
  destruct (succeeded (acts w 0%nat)) as [[|] | e]; steps; reflexivity.
Qed.

(** After the reading: the tests in the order of the script. *)
Lemma calls_react (s : json) (w : world) :
  calls (react s) w =
  match read s with
  | Err _ => []
  | Ok st =>
      Log (MsgState (hp st) (mhp st) (en st) (men st) (zone st) (inv_count st)) ::
      match is_dead st with
      | Err _ => []
      | Ok true => [Log MsgResting; Act (action "rest"); Sleep (NInt 65)]
      | Ok false =>
          match in_combat s with
          | Err _ => []
          | Ok true => [Log MsgFlee; Act (action "flee"); Sleep (NInt 6)]
          | Ok false =>
              match low_resources st with
              | Err _ => []
              | Ok true =>
                  [Log (MsgRest (hp st) (en st)); Act (action "rest"); Sleep (NInt 65)]
              | Ok false =>
                  match inventory_full st with
                  | Err _ => []
                  | Ok true => calls (sell st) w
                  | Ok false => calls (random_action s st) w
                  end
              end
          end
      end
  end.
Proof.
  unfold react.
  destruct (read s) as [st | e]; steps; [|reflexivity].
  destruct (is_dead st) as [[|] | e]; steps; try reflexivity.
  destruct (in_combat s) as [[|] | e]; steps; try reflexivity.
  destruct (low_resources st) as [[|] | e]; steps; try reflexivity.
  destruct (inventory_full st) as [[|] | e]; steps; reflexivity.
Qed.

(* ===================================================================== *)
(** ** The blocks of the loop body *)
(* ===================================================================== *)

Lemma calls_sell_each (items : list json) (w : world) :
  calls (sell_each items) w = sell_calls (sold items).
Proof.
  revert w. induction items as [| item rest IH]; intros w; cbn [sell_each sold].
  - reflexivity.
  - destruct (subscript item "resource") as [target | e]; steps.
    + rewrite IH. reflexivity.
    + reflexivity.
Qed.

Lemma sold_length (items : list json) :
  (List.length (sold items) <= List.length items)%nat.
Proof.
  induction items as [| item rest IH]; cbn [sold List.length]; [lia|].
  destruct (subscript item "resource"); cbn [List.length]; lia.
Qed.


Lemma chars_length (s : string) : List.length (chars s) = String.length s.
Proof.
  induction s as [| ch s IH]; cbn [chars List.length String.length]; congruence.
Qed.

Lemma take_string_length (n : nat) (s : string) :
  (String.length (take_string n s) <= n)%nat.
Proof.
  revert s. induction n as [| n IH]; intros s; destruct s as [| ch s];
    cbn [take_string String.length]; try lia.
  specialize (IH s). lia.
Qed.

(** What [for item in v[:n]] visits has at most [n] elements. *)
Lemma slice_iter_length (v first : json) (n : nat) (items : list json) :
  py_slice_to v n = Ok first -> py_iter first = Ok items ->
  (List.length items <= n)%nat.
Proof.
  destruct v; cbn [py_slice_to]; try discriminate; intros H; injection H as <-;
    cbn [py_iter]; intros H; injection H as <-.
  - rewrite chars_length. apply take_string_length.
  - apply firstn_le_length.
Qed.

Lemma calls_sell (st : reading) (w : world) :
  calls (sell st) w =
  Log MsgSelling :: go_to_market st ++
  match py_slice_to (inv st) 3 with
  | Err _ => []
  | Ok first3 =>
      match py_iter first3 with
      | Err _ => []
      | Ok items => sell_calls (sold items)
      end
  end.
Proof.
  unfold sell, go_to_market. steps.
  destruct (py_ne_str (zone st) "trading_post"); steps;
    (destruct (py_slice_to (inv st) 3) as [first3 | e]; steps; [|reflexivity]);
    (destruct (py_iter first3) as [items | e]; steps; [|reflexivity]);
    rewrite calls_sell_each; reflexivity.
Qed.

Lemma exec_gather (s : json) (w : world) :
  exec (gather s) w =
  match dict_get s "narrative" (JStr "") with
  | Err e => (Err e, w, [])
  | Ok narr =>
      match py_contains "Seaweed" narr with
      | Err e => (Err e, w, [])
      | Ok seaweed =>
          match py_contains "Sand Dollars" narr with
          | Err e => (Err e, w, [])
          | Ok dollars =>
              (Ok tt,
               match first_resource seaweed dollars with
               | Some _ => skip_act w
               | None => w
               end,
               gather_calls seaweed dollars)
          end
      end
  end.
Proof.
  unfold gather.
  destruct (dict_get s "narrative" (JStr "")) as [narr | e];
    cbn [bind lift]; [|reflexivity].
  destruct (py_contains "Seaweed" narr) as [seaweed | e];
    cbn [bind lift]; [|reflexivity].
  destruct (py_contains "Sand Dollars" narr) as [dollars | e];
    cbn [bind lift]; [|reflexivity].
  destruct seaweed, dollars; reflexivity.
Qed.

Lemma exec_move (st : reading) (w : world) :
  exec (move st) w =
  (Ok tt, skip_act w,
   [Log (MsgMove (other_zone st));
    Act (action_on "move" (JStr (other_zone st))); Sleep (NInt 6)]).
Proof. reflexivity. Qed.

Lemma exec_quest (w : world) :
  exec quest w =
  (Ok tt, skip_act w,
   [Log MsgQuest; Act (action_on "quest" (JStr "list")); Sleep (NInt 6)]).
Proof. reflexivity. Qed.

Lemma exec_status (w : world) :
  exec status w =
  (Ok tt, skip_act w, [Log MsgStatus; Act (action "status"); Sleep (NInt 6)]).
Proof. reflexivity. Qed.

(** No block of the random statement draws a number or asks for an integer:
    the world they leave answers [randint] as before. *)
Lemma picks_after_branch (s : json) (st : reading) (r : float) (w : world) :
  picks (world_after (random_branch s st r) w) = picks w.
Proof.
  unfold world_after, random_branch.
  destruct (r <? 0.4)%float.
  - rewrite exec_gather.
    destruct (dict_get s "narrative" (JStr "")) as [narr | e]; [|reflexivity].
    destruct (py_contains "Seaweed" narr) as [seaweed | e]; [|reflexivity].
    destruct (py_contains "Sand Dollars" narr) as [dollars | e]; [|reflexivity].
    destruct seaweed, dollars; reflexivity.
  - destruct (r <? 0.7)%float; [reflexivity|].
    destruct (r <? 0.85)%float; reflexivity.
Qed.

Lemma calls_random_action (s : json) (st : reading) (w : world) :
  calls (random_action s st) w =
  RandomRandom ::
  calls (random_branch s st (draws w 0%nat)) (skip_draw w) ++
  match outcome (random_branch s st (draws w 0%nat)) (skip_draw w) with
  | Ok _ => wait_calls (randint_of 10 20 (picks w 0%nat))
  | Err _ => []
  end.
Proof.
  unfold random_action. steps. rewrite calls_bind. f_equal. f_equal.
  destruct (outcome (random_branch s st (draws w 0%nat)) (skip_draw w)); [|reflexivity].
  unfold calls. rewrite exec_wait. cbn [snd]. rewrite picks_after_branch.
  reflexivity.
Qed.

Lemma outcome_random_action (s : json) (st : reading) (w : world) :
  outcome (random_action s st) w =
  outcome (random_branch s st (draws w 0%nat)) (skip_draw w).
Proof.
  unfold random_action. steps. rewrite outcome_bind.
  destruct (outcome (random_branch s st (draws w 0%nat)) (skip_draw w)) as [[] | e];
    [|reflexivity].
  unfold outcome. rewrite exec_wait. reflexivity.
Qed.

Lemma issued_sell_calls (targets : list json) :
  issued (sell_calls targets) = map (action_on "sell") targets.
Proof.
  induction targets as [| t rest IH]; cbn [sell_calls flat_map app issued map];
    [reflexivity|].
  f_equal. exact IH.
Qed.

(** What the sell block hands to [act]: the move, if any, then sells for at
    most three targets. *)
Lemma issued_sell (st : reading) (w : world) :
  exists targets,
    (List.length targets <= 3)%nat /\
    issued (calls (sell st) w) =
    issued (go_to_market st) ++ map (action_on "sell") targets.
Proof.
  rewrite calls_sell. cbn [issued]. rewrite issued_app.
  destruct (py_slice_to (inv st) 3) as [first3 | e] eqn:Hslice.
  - destruct (py_iter first3) as [items | e] eqn:Hiter.
    + exists (sold items). split.
      * pose proof (sold_length items).
        pose proof (slice_iter_length _ _ _ _ Hslice Hiter). lia.
      * rewrite issued_sell_calls. reflexivity.
    + exists []. split; [cbn; lia | reflexivity].
  - exists []. split; [cbn; lia | reflexivity].
Qed.

Lemma issued_random_branch (s : json) (st : reading) (r : float) (w : world) :
  In (issued (calls (random_branch s st r) w)) (random_requests st).
Proof.
  unfold random_branch, calls, random_requests.
  destruct (r <? 0.4)%float.
  - rewrite exec_gather.
    destruct (dict_get s "narrative" (JStr "")) as [narr | e]; [|cbn; auto].
    destruct (py_contains "Seaweed" narr) as [seaweed | e]; [|cbn; auto].
    destruct (py_contains "Sand Dollars" narr) as [dollars | e]; [|cbn; auto].
    destruct seaweed, dollars; cbn; auto.
  - destruct (r <? 0.7)%float; [rewrite exec_move; cbn; auto 6|].
    destruct (r <? 0.85)%float;
      [rewrite exec_quest | rewrite exec_status]; cbn; auto 7.
Qed.

Lemma issued_wait_calls (v : Z) : issued (wait_calls v) = [].
Proof. reflexivity. Qed.

Lemma issued_random_action (s : json) (st : reading) (w : world) :
  In (issued (calls (random_action s st) w)) (random_requests st).
Proof.
  rewrite calls_random_action. cbn [issued]. rewrite issued_app.
  replace (issued _ ++ issued _)
    with (issued (calls (random_branch s st (draws w 0%nat)) (skip_draw w))).
  - apply issued_random_branch.
  - destruct (outcome _ _); cbn [issued wait_calls]; rewrite app_nil_r; reflexivity.
Qed.



(* ===================================================================== *)
(** ** The claims about [run] *)
(* ===================================================================== *)

(** C8.  When the look of a pass does not report success, the pass hands
    nothing but the look to [act]: it pauses 6 then 10 seconds and ends
    normally, so that the loop starts its next pass. *)
Theorem failed_look_issues_nothing (w : world) (c : Z) :
  succeeded (look_reply w) = Ok false ->
  calls (cycle c) w =
    [Log (MsgCycle c); Act (action "look"); Sleep (NInt 6); Sleep (NInt 10)]
  /\ outcome (cycle c) w = Ok tt
  /\ game_actions (calls (cycle c) w) = [].
Proof.
  unfold look_reply. intros H.
  rewrite calls_cycle, outcome_cycle, H. repeat split.
Qed.

Lemma failed_look_issues_nothing_witness :
  succeeded (look_reply (looking_at failure 0%float 0)) = Ok false
  /\ (calls (cycle 1) (looking_at failure 0%float 0) =
        [Log (MsgCycle 1); Act (action "look"); Sleep (NInt 6); Sleep (NInt 10)]
      /\ outcome (cycle 1) (looking_at failure 0%float 0) = Ok tt
      /\ game_actions (calls (cycle 1) (looking_at failure 0%float 0)) = []).
Proof.
  split; [reflexivity|].
  apply (failed_look_issues_nothing (looking_at failure 0%float 0) 1).
  reflexivity.
Defined.





(** The threshold on a few readings: 39 of 100 is low, 40 of 100 is not;
    14 energy is low, 15 is not. *)
Example low_at_39_of_100 :
  low_resources (reading_of (snapshot 39 100 30 "shallows" "" [])) = Ok true.
Proof. reflexivity. Qed.

Example not_low_at_40_of_100 :
  low_resources (reading_of (snapshot 40 100 15 "shallows" "" [])) = Ok false.
Proof. reflexivity. Qed.

Example low_at_14_energy :
  low_resources (reading_of (snapshot 40 100 14 "shallows" "" [])) = Ok true.
Proof. reflexivity. Qed.

(** *** The random statement *)

Lemma drawn_app (tr1 tr2 : list effect) :
  drawn (tr1 ++ tr2) = (drawn tr1 + drawn tr2)%nat.
Proof.
  induction tr1 as [| c tr1 IH]; cbn [app drawn]; [reflexivity|].
  destruct c; cbn [drawn]; rewrite IH; reflexivity.
Qed.

Lemma drawn_sell_calls (targets : list json) : drawn (sell_calls targets) = O.
Proof.
  induction targets as [| t rest IH]; cbn [sell_calls flat_map app drawn];
    [reflexivity | exact IH].
Qed.

Lemma drawn_sell (st : reading) (w : world) : drawn (calls (sell st) w) = O.
Proof.
  rewrite calls_sell. cbn [drawn]. rewrite drawn_app.
  replace (drawn (go_to_market st)) with O
    by (unfold go_to_market; destruct (py_ne_str _ _); reflexivity).
  destruct (py_slice_to (inv st) 3) as [first3 | e]; [|reflexivity].
  destruct (py_iter first3) as [items | e]; [|reflexivity].
  apply drawn_sell_calls.
Qed.

Lemma calls_random_branch (s : json) (st : reading) (r : float) (w : world) :
  calls (random_branch s st r) w =
  if (r <? 0.4)%float then calls (gather s) w
  else if (r <? 0.7)%float then
    [Log (MsgMove (other_zone st));
     Act (action_on "move" (JStr (other_zone st))); Sleep (NInt 6)]
  else if (r <? 0.85)%float then
    [Log MsgQuest; Act (action_on "quest" (JStr "list")); Sleep (NInt 6)]
  else [Log MsgStatus; Act (action "status"); Sleep (NInt 6)].
Proof.
  unfold random_branch.
  destruct (r <? 0.4)%float; [reflexivity|].
  destruct (r <? 0.7)%float; [reflexivity|].
  destruct (r <? 0.85)%float; reflexivity.
Qed.

Lemma calls_gather (s : json) (w : world) :
  calls (gather s) w =
  match dict_get s "narrative" (JStr "") with
  | Err _ => []
  | Ok narr =>
      match py_contains "Seaweed" narr, py_contains "Sand Dollars" narr with
      | Ok seaweed, Ok dollars => gather_calls seaweed dollars
      | _, _ => []
      end
  end.
Proof.
  unfold calls. rewrite exec_gather.
  destruct (dict_get s "narrative" (JStr "")) as [narr | e]; [|reflexivity].
  destruct (py_contains "Seaweed" narr) as [seaweed | e]; [|reflexivity].
  destruct (py_contains "Sand Dollars" narr) as [dollars | e]; reflexivity.
Qed.









(** With neither word in the narrative the gather block does nothing. *)
Example gather_without_resource :
  calls (cycle 1)
    (looking_at (snapshot 80 100 30 "shallows" "Calm water." []) 0.25%float 7) =
  [Log (MsgCycle 1); Act (action "look"); Sleep (NInt 6);
   Log (MsgState (JInt 80) (JInt 100) (JInt 30) (JInt 50) (JStr "shallows") (JInt 0));
   RandomRandom; RandInt 10 20; Log (MsgWait 17); Sleep (NInt 17)].
Proof. reflexivity. Qed.

(** *** The sell block *)

Lemma sum_quantities_dicts (items : list json) (total result : json) :
  sum_quantities items total = Ok result ->
  Forall (fun i => exists fields, i = JDict fields) items.
Proof.
  revert total. induction items as [| i rest IH]; intros total H; [constructor|].
  cbn [sum_quantities] in H.
  destruct i; cbn [dict_get rbind] in H; try discriminate.
  constructor; [eauto|].
  destruct (py_add total _) as [t | e]; cbn [rbind] in H; [|discriminate].
  exact (IH _ H).
Qed.

(** A reading whose inventory counts at least 8 has a list as inventory:
    the sum visits at least one entry, and every entry it visits is a
    dict. *)
Lemma full_inventory_is_list (s : json) (st : reading) :
  read s = Ok st -> inventory_full st = Ok true ->
  exists items, inv st = JList items.
Proof.
  unfold read. intros H Hfull.
  repeat match type of H with
         | rbind ?r _ = _ =>
             let E := fresh "E" in
             destruct r eqn:E; cbn [rbind] in H; [|discriminate]
         end.
  injection H as <-. cbn [inv]. unfold inventory_full in Hfull. cbn [inv_count] in Hfull.
  match goal with
  | Hi : py_iter ?v = Ok ?l, Hs : sum_quantities ?l _ = Ok _ |- _ =>
      pose proof (sum_quantities_dicts _ _ _ Hs) as Hd;
      destruct v; cbn [py_iter] in Hi; try discriminate;
      injection Hi as <-
  end.
  - exfalso. match goal with
             | Hs : sum_quantities (chars ?s0) _ = Ok _ |- _ => destruct s0
             end.
    + match goal with Hs : sum_quantities _ _ = Ok _ |- _ =>
        cbn in Hs; injection Hs as <- end.
      discriminate.
    + cbn [chars] in Hd. inversion Hd as [| ? ? [fs' Hf] _]. discriminate.
  - eauto.
  - exfalso. match goal with
             | Hs : sum_quantities (map _ ?fs) _ = Ok _ |- _ => destruct fs
             end.
    + match goal with Hs : sum_quantities _ _ = Ok _ |- _ =>
        cbn in Hs; injection Hs as <- end.
      discriminate.
    + cbn [map] in Hd. inversion Hd as [| ? ? [fs' Hf] _]. discriminate.
Qed.





(** The same pass, call by call. *)
Example selling_pass :
  game_actions
    (calls (cycle 1)
       (looking_at (snapshot 80 100 30 "shallows" "Calm water."
                      [item "kelp" 3; item "shell" 3; item "pearl" 2;
                       item "coral" 1]) 0%float 0)) =
  [action_on "move" (JStr "trading_post");
   action_on "sell" (JStr "kelp");
   action_on "sell" (JStr "shell");
   action_on "sell" (JStr "pearl")].
Proof. reflexivity. Qed.

(** *** How many game actions a pass issues *)




(** *** The pauses of a pass *)

Lemma slept_app (tr1 tr2 : list effect) :
  slept (tr1 ++ tr2) = slept tr1 ++ slept tr2.
Proof.
  induction tr1 as [| c tr1 IH]; cbn [app slept]; [reflexivity|].
  destruct c; cbn [slept app]; rewrite IH; reflexivity.
Qed.




Lemma outcome_react (s : json) (w : world) :
  outcome (react s) w =
  match read s with
  | Err e => Err e
  | Ok st =>
      match is_dead st with
      | Err e => Err e
      | Ok true => Ok tt
      | Ok false =>
          match in_combat s with
          | Err e => Err e
          | Ok true => Ok tt
          | Ok false =>
              match low_resources st with
              | Err e => Err e
              | Ok true => Ok tt
              | Ok false =>
                  match inventory_full st with
                  | Err e => Err e
                  | Ok true => outcome (sell st) w
                  | Ok false => outcome (random_action s st) w
                  end
              end
          end
      end
  end.
Proof.
  unfold react.
  destruct (read s) as [st | e]; steps; [|reflexivity].
  destruct (is_dead st) as [[|] | e]; steps; try reflexivity.
  destruct (in_combat s) as [[|] | e]; steps; try reflexivity.
  destruct (low_resources st) as [[|] | e]; steps; try reflexivity.
  destruct (inventory_full st) as [[|] | e]; steps; reflexivity.
Qed.





(* ===================================================================== *)
(** ** The claims about [act] *)
(* ===================================================================== *)

Lemma exec_catch {A} (p : prog A) (h : exn -> prog A) (w : world) :
  exec (catch p h) w =
  match exec p w with
  | (Ok a, w', tr) => (Ok a, w', tr)
  | (Err e, w', tr) => let '(r, w'', tr') := exec (h e) w' in (r, w'', tr ++ tr')
  end.
Proof.
  revert w; induction p as [a | e | c k IH]; intros w; cbn [catch exec].
  - reflexivity.
  - destruct (exec (h e) w) as [[r w'] tr]; reflexivity.
  - destruct (respond c w) as [x w']. rewrite IH.
    destruct (exec (k x) w') as [[[a | e] w''] tr]; [reflexivity|].
    destruct (exec (h e) w'') as [[r w3] tr']; reflexivity.
Qed.

(** One turn of the loop of [act], case by case: it sends the request once,
    and either returns the reply, or sleeps for the delay the server asked
    for, or logs the exception and sleeps 5 seconds. *)
Lemma exec_attempt (body : json) (w : world) :
  exec (attempt body) w =
  match http w 0%nat with
  | Err e => (Ok None, skip_http w, Post body :: backoff e)
  | Ok d =>
      match rate_limited d with
      | Err e => (Ok None, skip_http w, Post body :: backoff e)
      | Ok true =>
          match retry_delay d with
          | Ok secs => (Ok None, skip_http w, [Post body; Sleep secs])
          | Err e => (Ok None, skip_http w, Post body :: backoff e)
          end
      | Ok false =>
          match report body d with
          | Ok m => (Ok (Some d), skip_http w, [Post body; Log m])
          | Err e => (Ok None, skip_http w, Post body :: backoff e)
          end
      end
  end.
Proof.
  unfold attempt. rewrite exec_catch. unfold requests_post.
  cbn [bind perform exec respond].
  destruct (http w 0%nat) as [d | e]; cbn [lift bind exec]; [|reflexivity].
  destruct (rate_limited d) as [[|] | e]; cbn [lift bind exec]; [| |reflexivity].
  - unfold retry_delay, time_sleep.
    destruct (dict_get d "retryAfterSec" (JInt 3)) as [after | e];
      cbn [rbind lift bind exec]; [|reflexivity].
    destruct (py_add after (JInt 1)) as [secs | e];
      cbn [rbind lift bind exec]; [|reflexivity].
    destruct (sleep_arg secs) as [n | e]; reflexivity.
  - unfold report.
    destruct (dict_get d "success" JNull) as [ok | e];
      cbn [rbind lift bind exec]; [|reflexivity].
    destruct (subscript body "action") as [a | e];
      cbn [rbind lift bind exec]; [|reflexivity].
    destruct (dict_get d "narrative" (JStr "")) as [narrative | e];
      cbn [rbind lift bind exec]; [|reflexivity].
    destruct (py_slice_to narrative 70) as [shown | e]; reflexivity.
Qed.

(** A turn never raises, sends exactly one request and consumes exactly one
    reply; what it returns, if anything, is that reply. *)
Lemma attempt_cases (body : json) (w : world) :
  exists r tr,
    exec (attempt body) w = (Ok r, skip_http w, Post body :: tr)
    /\ posted tr = []
    /\ (r = None \/ (exists d, r = Some d /\ http w 0%nat = Ok d)).
Proof.
  rewrite exec_attempt.
  destruct (http w 0%nat) as [d | e]; [|eauto 6].
  destruct (rate_limited d) as [[|] | e]; [| |eauto 6].
  - destruct (retry_delay d) as [secs | e]; eauto 6.
  - destruct (report body d) as [m | e]; eauto 8.
Qed.

Lemma retried_not_returned (body : json) (r : result json) :
  retried r -> returns_reply body r = false.
Proof.
  destruct r as [d | e]; cbn [retried returns_reply]; [|reflexivity].
  intros ->. reflexivity.
Qed.

Lemma attempt_gives_up (body : json) (w : world) :
  returns_reply body (http w 0%nat) = false ->
  exists tr,
    exec (attempt body) w = (Ok None, skip_http w, Post body :: tr)
    /\ posted tr = [].
Proof.
  rewrite exec_attempt. unfold returns_reply.
  destruct (http w 0%nat) as [d | e]; [|eauto].
  destruct (rate_limited d) as [[|] | e]; [| |eauto].
  - destruct (retry_delay d) as [secs | e]; eauto.
  - destruct (report body d) as [m | e]; [discriminate | eauto].
Qed.

Lemma exec_act_step (body : json) (remaining : nat) (w : world) :
  exec (act body (S remaining)) w =
  let '(r, w', tr) := exec (attempt body) w in
  match r with
  | Ok (Some d) => (Ok d, w', tr)
  | Ok None =>
      let '(r', w'', tr') := exec (act body remaining) w' in (r', w'', tr ++ tr')
  | Err e => (Err e, w', tr)
  end.
Proof.
  cbn [act]. rewrite exec_bind.
  destruct (exec (attempt body) w) as [[[[d |] | e] w'] tr]; cbn [exec].
  - rewrite app_nil_r. reflexivity.
  - reflexivity.
  - reflexivity.
Qed.

(** [act] returns, after at most [retries] requests, all with the same
    body; it returns the fallback or one of the replies it received. *)
Lemma act_returns (body : json) (retries : nat) (w : world) :
  exists d k,
    outcome (act body retries) w = Ok d
    /\ posted (calls (act body retries) w) = repeat body k
    /\ (k <= retries)%nat
    /\ (d = failure \/ exists i, (i < retries)%nat /\ http w i = Ok d).
Proof.
  revert w. induction retries as [| n IH]; intros w.
  - exists failure, O. cbn. repeat split; auto.
  - unfold outcome, calls in *. rewrite exec_act_step.
    destruct (attempt_cases body w) as (r & tr & -> & Htr & Hr).
    destruct Hr as [-> | (d & -> & Hd)].
    + destruct (IH (skip_http w)) as (d & k & Hout & Hposted & Hk & Hd).
      destruct (exec (act body n) (skip_http w)) as [[r' w''] tr'].
      cbn [fst snd] in *. exists d, (S k).
      split; [exact Hout|]. split; [|split; [lia|]].
      * cbn [posted app]. rewrite posted_app, Htr, Hposted. reflexivity.
      * destruct Hd as [-> | (i & Hi & Hd)]; [auto|].
        right. exists (S i). split; [lia | exact Hd].
    + exists d, 1%nat. cbn [fst snd posted]. rewrite Htr.
      repeat split; [lia|]. right. exists O. split; [lia | exact Hd].
Qed.

Lemma act_exhausted (body : json) (retries : nat) (w : world) :
  (forall i, (i < retries)%nat -> returns_reply body (http w i) = false) ->
  outcome (act body retries) w = Ok failure
  /\ posted (calls (act body retries) w) = repeat body retries.
Proof.
  revert w. induction retries as [| n IH]; intros w H.
  - split; reflexivity.
  - unfold outcome, calls in *. rewrite exec_act_step.
    destruct (attempt_gives_up body w (H O ltac:(lia))) as (tr & -> & Htr).
    destruct (IH (skip_http w)) as (Hout & Hposted).
    { intros i Hi. exact (H (S i) ltac:(lia)). }
    destruct (exec (act body n) (skip_http w)) as [[r' w''] tr'].
    cbn [fst snd] in *. split; [exact Hout|].
    cbn [posted app repeat]. rewrite posted_app, Htr, Hposted. reflexivity.
Qed.

(** C7.  [act] never raises: whatever the request body and whatever the
    server does, it returns a value; and when none of its attempts returns
    a reply (the request raised, the reply was rate limited, or handling it
    raised), it has sent the request [retries] times (3 by default) and
    returns [{"success": False}]. *)
Theorem act_never_raises (body : json) (retries : nat) (w : world) :
  (exists d, outcome (act body retries) w = Ok d)
  /\ ((forall i, (i < retries)%nat -> returns_reply body (http w i) = false) ->
      outcome (act body retries) w = Ok failure
      /\ posted (calls (act body retries) w) = repeat body retries).
Proof.
  split.
  - destruct (act_returns body retries w) as (d & k & H & _). eauto.
  - apply act_exhausted.
Qed.

Lemma act_never_raises_witness :
  let w := answering [Err RequestError; Ok (rate_limit_reply (JInt 2)); Ok JNull] in
  (forall i, (i < default_retries)%nat ->
     returns_reply (action "rest") (http w i) = false)
  /\ outcome (act (action "rest") default_retries) w = Ok failure
  /\ posted (calls (act (action "rest") default_retries) w) =
     [action "rest"; action "rest"; action "rest"].
Proof.
  cbv zeta.
  assert (H : forall i, (i < default_retries)%nat ->
              returns_reply (action "rest")
                (http (answering [Err RequestError;
                                  Ok (rate_limit_reply (JInt 2));
                                  Ok JNull]) i) = false).
  { intros i Hi. unfold default_retries in Hi.
    destruct i as [| [| [| i]]]; [reflexivity | reflexivity | reflexivity | lia]. }
  split; [exact H|].
  exact (proj2 (act_never_raises (action "rest") default_retries
                  (answering [Err RequestError; Ok (rate_limit_reply (JInt 2));
                              Ok JNull])) H).
Defined.





(* ===================================================================== *)
(** ** Further properties: the thresholds on integer readings *)
(* ===================================================================== *)

Lemma all_from_spec (count : nat) (z : Z) (f : Z -> bool) :
  all_from count z f = true ->
  forall x, z <= x < z + Z.of_nat count -> f x = true.
Proof.
  revert z. induction count as [| k IH]; intros z H x Hx; [lia|].
  cbn [all_from] in H. apply andb_true_iff in H. destruct H as [Hz Hrest].
  destruct (Z.eq_dec x z) as [-> | Hne]; [exact Hz|].
  apply (IH (z + 1) Hrest). lia.
Qed.

(** The comparison of an integer with a double is monotone in the integer. *)
Lemma int_below_mono (n n' : Z) (x : float) :
  n <= n' -> int_below n' x = true -> int_below n x = true.
Proof.
  unfold int_below, compare_int_float. intros Hle.
  destruct (Prim2SF x) as [s | s | | s m e]; try discriminate.
  - destruct (Z.compare_spec n' 0); try discriminate.
    intros _. destruct (Z.compare_spec n 0); try reflexivity; lia.
  - destruct s; [discriminate | reflexivity].
  - set (v := if s then Z.neg m else Z.pos m).
    destruct (0 <=? e) eqn:He.
    + destruct (Z.compare_spec n' (v * 2 ^ e)); try discriminate.
      intros _. destruct (Z.compare_spec n (v * 2 ^ e)); try reflexivity; lia.
    + apply Z.leb_gt in He.
      assert (Hp : 0 < 2 ^ (- e)) by (apply Z.pow_pos_nonneg; lia).
      destruct (Z.compare_spec (n' * 2 ^ (- e)) v); try discriminate.
      intros _. destruct (Z.compare_spec (n * 2 ^ (- e)) v); try reflexivity; nia.
Qed.

Lemma low_hp_int_below (hp mhp : Z) (b : bool) :
  low_hp hp mhp = Ok b ->
  exists x, py_mul_float (JInt mhp) 0.4%float = Ok (JFloat x) /\ b = int_below hp x.
Proof.
  unfold low_hp, py_mul_float. cbn [as_num].
  destruct (float_of_int mhp) as [fx | e]; cbn [rbind]; [|discriminate].
  cbn [py_lt as_num num_ltb]. intros H; injection H as <-. eauto.
Qed.

(** The double product [mhp * 0.4] separates the integers exactly where
    two fifths of [mhp] does, for every [mhp] from 0 to 10000. *)
Lemma thresholds_checked :
  all_from (Z.to_nat 10001) 0 threshold_exact_at = true.
Proof. vm_compute. reflexivity. Qed.

Lemma low_hp_is_two_fifths (hp mhp : Z) :
  0 <= mhp <= 10000 ->
  low_hp hp mhp = Ok (5 * hp <? 2 * mhp).
Proof.
  intros Hm.
  assert (H : threshold_exact_at mhp = true).
  { apply (all_from_spec _ _ _ thresholds_checked). rewrite Z2Nat.id; lia. }
  unfold threshold_exact_at in H.
  remember ((2 * mhp - 1) / 5) as h eqn:Hh.
  destruct (low_hp h mhp) as [[|] | e] eqn:E1; try discriminate.
  destruct (low_hp (h + 1) mhp) as [[|] | e] eqn:E2; try discriminate.
  destruct (low_hp_int_below _ _ _ E1) as (x & Hx & Hb1).
  destruct (low_hp_int_below _ _ _ E2) as (x' & Hx' & Hb2).
  rewrite Hx in Hx'. injection Hx' as <-.
  unfold low_hp. rewrite Hx. cbn [rbind py_lt as_num num_ltb]. f_equal.
  fold (int_below hp x).
  destruct (5 * hp <? 2 * mhp) eqn:Hc.
  - apply Z.ltb_lt in Hc. apply (int_below_mono hp h); [|congruence].
    subst h. apply Z.div_le_lower_bound; lia.
  - apply Z.ltb_ge in Hc. destruct (int_below hp x) eqn:Hb; [|reflexivity].
    assert (int_below (h + 1) x = true).
    { apply (int_below_mono (h + 1) hp); [|exact Hb].
      pose proof (Z.mul_div_le (2 * mhp - 1) 5 ltac:(lia)) as Hd.
      rewrite <- Hh in Hd. lia. }
    congruence.
Qed.

(** X1.  On a reading whose hp, maxHp and energy are integers, with maxHp
    between 0 and 10000, the double-precision test
    [hp < mhp * 0.4 or en < 15] never raises and decides exactly
    [5 * hp < 2 * maxHp] or [energy < 15]: the rounding of [0.4] moves no
    integer across the threshold. *)
Theorem low_resources_on_integers (st : reading) (h m e : Z) :
  hp st = JInt h -> mhp st = JInt m -> en st = JInt e ->
  0 <= m <= 10000 ->
  low_resources st = Ok ((5 * h <? 2 * m) || (e <? 15)).
Proof.
  intros Hh Hm He Hrange. unfold low_resources. rewrite Hh, Hm, He.
  pose proof (low_hp_is_two_fifths h m Hrange) as H. unfold low_hp in H.
  destruct (py_mul_float (JInt m) 0.4) as [bound | err]; cbn [rbind] in *;
    [|discriminate].
  rewrite H. cbn [rbind]. destruct (5 * h <? 2 * m); reflexivity.
Qed.

Lemma low_resources_on_integers_witness :
  let st := reading_of (snapshot 40 100 15 "shallows" "Calm water." []) in
  hp st = JInt 40 /\ mhp st = JInt 100 /\ en st = JInt 15
  /\ 0 <= 100 <= 10000
  /\ low_resources st = Ok ((5 * 40 <? 2 * 100) || (15 <? 15)).
Proof.
  cbv zeta. repeat (split; [reflexivity || lia|]).
  apply (low_resources_on_integers
           (reading_of (snapshot 40 100 15 "shallows" "Calm water." []))
           40 100 15); try reflexivity; lia.
Defined.

(* ===================================================================== *)
(** ** Further properties of [act] *)
(* ===================================================================== *)



(** X3.  Whatever raises in a turn (the request, a reply that is not an
    object, a delay that [time.sleep] rejects, a body without ["action"],
    a narrative that cannot be sliced), the turn logs the exception, sleeps
    5 seconds, and the loop goes on with the attempts that are left. *)
Theorem act_backs_off_five_seconds
    (body : json) (e : exn) (remaining : nat) (w : world) :
  caught body (http w 0%nat) = Some e ->
  calls (act body (S remaining)) w =
  Post body :: Log (MsgActFailed e) :: Sleep (NInt 5) ::
  calls (act body remaining) (skip_http w).
Proof.
  intros H. unfold calls. rewrite exec_act_step, exec_attempt.
  unfold caught in H.
  destruct (exec (act body remaining) (skip_http w)) as [[r' w''] tr'] eqn:E.
  destruct (http w 0%nat) as [d | e0].
  - destruct (rate_limited d) as [[|] | e0].
    + destruct (retry_delay d) as [secs | e0]; [discriminate|].
      injection H as ->. rewrite E. reflexivity.
    + destruct (report body d) as [m | e0]; [discriminate|].
      injection H as ->. rewrite E. reflexivity.
    + injection H as ->. rewrite E. reflexivity.
  - injection H as ->. rewrite E. reflexivity.
Qed.

Lemma act_backs_off_five_seconds_witness :
  let w := answering [Ok (rate_limit_reply (JStr "soon")); Ok failure] in
  caught (action "rest") (http w 0%nat) = Some TypeError
  /\ calls (act (action "rest") 3) w =
     Post (action "rest") :: Log (MsgActFailed TypeError) :: Sleep (NInt 5) ::
     calls (act (action "rest") 2) (skip_http w).
Proof.
  cbv zeta. split; [reflexivity|].
  exact (act_backs_off_five_seconds (action "rest") TypeError 2
           (answering [Ok (rate_limit_reply (JStr "soon")); Ok failure])
           eq_refl).
Defined.

(** X4.  With at least one attempt allowed, [act] sends the request at
    least once and at most [retries] times, every time with the body it
    was given. *)
Theorem act_sends_one_to_retries (body : json) (retries : nat) (w : world) :
  (1 <= retries)%nat ->
  exists k,
    (1 <= k <= retries)%nat
    /\ posted (calls (act body retries) w) = repeat body k.
Proof.
  destruct retries as [| n]; [lia|]. intros _.
  unfold calls. rewrite exec_act_step.
  destruct (attempt_cases body w) as (r & tr & -> & Htr & Hr).
  destruct Hr as [-> | (d & -> & _)].
  - destruct (act_returns body n (skip_http w)) as (d & k & _ & Hposted & Hk & _).
    unfold calls in Hposted.
    destruct (exec (act body n) (skip_http w)) as [[r' w''] tr'].
    cbn [snd] in *. exists (S k). split; [lia|].
    cbn [posted app repeat]. rewrite posted_app, Htr, Hposted. reflexivity.
  - exists 1%nat. split; [lia|]. cbn [snd posted repeat]. rewrite Htr. reflexivity.
Qed.

Lemma act_sends_one_to_retries_witness :
  (1 <= default_retries)%nat
  /\ exists k,
       (1 <= k <= default_retries)%nat
       /\ posted (calls (act (action "look") default_retries)
                    (answering [Err RequestError; Ok failure])) =
          repeat (action "look") k.
Proof.
  split; [unfold default_retries; lia|].
  apply (act_sends_one_to_retries (action "look") default_retries
           (answering [Err RequestError; Ok failure])).
  unfold default_retries; lia.
Defined.

Lemma no_action_never_returned (body : json) (e : exn) (r : result json) :
  subscript body "action" = Err e -> returns_reply body r = false.
Proof.
  intros H. destruct r as [d | e0]; cbn [returns_reply]; [|reflexivity].
  destruct (rate_limited d) as [[|] | e0]; try reflexivity.
  unfold report. destruct (dict_get d "success" JNull) as [ok | e0];
    cbn [rbind]; [|reflexivity].
  rewrite H. reflexivity.
Qed.

(** X5.  A request body from which [body['action']] cannot be read (not a
    dict, or a dict without that key) is still sent, but no reply to it is
    ever returned: the log line raises after each reply, so [act] uses up
    all its attempts and returns [{"success": False}], whatever the server
    answers. *)
Theorem act_without_action_fails (body : json) (e : exn) (retries : nat) (w : world) :
  subscript body "action" = Err e ->
  outcome (act body retries) w = Ok failure
  /\ posted (calls (act body retries) w) = repeat body retries.
Proof.
  intros H. apply act_exhausted. intros i _.
  exact (no_action_never_returned body e _ H).
Qed.

Lemma act_without_action_fails_witness :
  let body := JDict [("target", JStr "seaweed")] in
  let w := answering [Ok (snapshot 80 100 30 "shallows" "Done." [])] in
  subscript body "action" = Err KeyError
  /\ outcome (act body default_retries) w = Ok failure
  /\ posted (calls (act body default_retries) w) = [body; body; body].
Proof.
  cbv zeta. split; [reflexivity|].
  exact (act_without_action_fails (JDict [("target", JStr "seaweed")]) KeyError
           default_retries
           (answering [Ok (snapshot 80 100 30 "shallows" "Done." [])])
           eq_refl).
Defined.

Lemma attempt_returned (body d : json) (w w' : world) (tr : list effect) :
  exec (attempt body) w = (Ok (Some d), w', tr) ->
  http w 0%nat = Ok d /\ returns_reply body (Ok d) = true.
Proof.
  rewrite exec_attempt. unfold returns_reply.
  destruct (http w 0%nat) as [d0 | e]; [|discriminate].
  destruct (rate_limited d0) as [[|] | e] eqn:Hl; [| |discriminate].
  - destruct (retry_delay d0); discriminate.
  - destruct (report body d0) as [m | e] eqn:Hm; [|discriminate].
    intros H. injection H as <- _ _. rewrite Hl, Hm. auto.
Qed.

(** What [act] returns is the fallback, or a reply that one of its turns
    accepted. *)
Lemma act_returned (body : json) (retries : nat) (w : world) (d : json) :
  outcome (act body retries) w = Ok d ->
  d = failure
  \/ exists i, (i < retries)%nat /\ http w i = Ok d
               /\ returns_reply body (Ok d) = true.
Proof.
  revert w. induction retries as [| n IH]; intros w.
  - cbn. intros H; injection H as <-. auto.
  - unfold outcome in *. rewrite exec_act_step.
    destruct (exec (attempt body) w) as [[[[d0 |] | e] w'] tr] eqn:E.
    + cbn [fst]. intros H; injection H as <-.
      destruct (attempt_returned _ _ _ _ _ E) as [H1 H2].
      right. exists O. repeat split; [lia | exact H1 | exact H2].
    + destruct (attempt_cases body w) as (r & tr0 & E' & _). rewrite E in E'.
      injection E' as <- -> _.
      specialize (IH (skip_http w)).
      destruct (exec (act body n) (skip_http w)) as [[r' w''] tr'].
      cbn [fst] in *. intros H. destruct (IH H) as [-> | (i & Hi & Hd & Hr)]; [auto|].
      right. exists (S i). repeat split; [lia | exact Hd | exact Hr].
    + destruct (attempt_cases body w) as (r & tr0 & E' & _). rewrite E in E'.
      discriminate.
Qed.

Lemma sliceable_contains (v shown : json) (n : nat) (needle : string) :
  py_slice_to v n = Ok shown -> exists b, py_contains needle v = Ok b.
Proof.
  destruct v; cbn [py_slice_to py_contains]; try discriminate; eauto.
Qed.

(** X6.  Whatever [act] returns can be used by the loop body without an
    exception up to and including the combat test and the gather block:
    it is a dict, so [s.get] works, and its narrative, if any, is a string
    or a list, so the [in] tests of [run] do not raise.  ([act] has
    discarded every other reply: its own log line raised on it.) *)
Theorem act_result_suits_run (body : json) (retries : nat) (w : world) (d : json) :
  outcome (act body retries) w = Ok d ->
  (exists fields, d = JDict fields)
  /\ (exists b, succeeded d = Ok b)
  /\ (exists b, in_combat d = Ok b)
  /\ (forall w', outcome (gather d) w' = Ok tt).
Proof.
  intros H. destruct (act_returned _ _ _ _ H) as [-> | (i & _ & _ & Hr)].
  - split; [eexists; reflexivity|]. split; [eexists; reflexivity|].
    split; [eexists; reflexivity|]. intros w'. reflexivity.
  - unfold returns_reply in Hr.
    destruct (rate_limited d) as [[|] | e] eqn:Hl; try discriminate.
    destruct (report body d) as [m | e] eqn:Hm; [|discriminate].
    unfold rate_limited in Hl. destruct d; cbn [dict_get rbind] in Hl; try discriminate.
    unfold report in Hm. cbn [dict_get rbind] in Hm.
    destruct (subscript body "action") as [a | e]; cbn [rbind] in Hm; [|discriminate].
    set (narr := match lookup "narrative" fields with
                 | Some v => v
                 | None => JStr ""
                 end) in *.
    destruct (py_slice_to narr 70) as [shown | e] eqn:Hs; [|discriminate].
    split; [eauto|]. split; [unfold succeeded; cbn; eauto|].
    split.
    + unfold in_combat. cbn [dict_get rbind]. fold narr.
      exact (sliceable_contains _ _ _ _ Hs).
    + intros w'. unfold outcome. rewrite exec_gather. cbn [dict_get]. fold narr.
      destruct (sliceable_contains _ _ _ "Seaweed" Hs) as [b1 ->].
      destruct (sliceable_contains _ _ _ "Sand Dollars" Hs) as [b2 ->].
      reflexivity.
Qed.

Lemma act_result_suits_run_witness :
  let d := snapshot 80 100 30 "shallows" "Seaweed sways." [] in
  let w := answering [Err RequestError; Ok d] in
  outcome (act (action "look") default_retries) w = Ok d
  /\ (exists fields, d = JDict fields)
  /\ (exists b, succeeded d = Ok b)
  /\ (exists b, in_combat d = Ok b)
  /\ (forall w', outcome (gather d) w' = Ok tt).
Proof.
  cbv zeta. split; [reflexivity|].
  exact (act_result_suits_run (action "look") default_retries
           (answering [Err RequestError;
                       Ok (snapshot 80 100 30 "shallows" "Seaweed sways." [])])
           (snapshot 80 100 30 "shallows" "Seaweed sways." [])
           eq_refl).
Defined.

(* ===================================================================== *)
(** ** Further properties of the loop body *)
(* ===================================================================== *)

Lemma react_never_looks (s : json) (w : world) :
  ~ In (action "look") (issued (calls (react s) w)).
Proof.
  rewrite calls_react.
  destruct (read s) as [st | e]; [|intros []].
  cbn [issued].
  destruct (is_dead st) as [[|] | e]; [cbn; intuition discriminate | | intros []].
  destruct (in_combat s) as [[|] | e]; [cbn; intuition discriminate | | intros []].
  destruct (low_resources st) as [[|] | e];
    [cbn; intuition discriminate | | intros []].
  destruct (inventory_full st) as [[|] | e]; [| | intros []].
  - destruct (issued_sell st w) as (targets & _ & ->).
    rewrite in_app_iff, in_map_iff. intros [H | (t & H & _)]; [|discriminate].
    unfold go_to_market in H.
    destruct (py_ne_str (zone st) "trading_post"); cbn in H; intuition discriminate.
  - pose proof (issued_random_action s st w) as H. unfold random_requests in H.
    cbn [In] in H.
    destruct H as [<- | [<- | [<- | [<- | [<- | [<- | []]]]]]];
      cbn [In]; intuition discriminate.
Qed.

(** X7.  Every pass, in every world, begins with the cycle line, the look
    and the pause of 6 seconds, and looks only that once. *)
Theorem pass_starts_with_one_look (w : world) (c : Z) :
  exists rest,
    calls (cycle c) w =
    Log (MsgCycle c) :: Act (action "look") :: Sleep (NInt 6) :: rest
    /\ ~ In (action "look") (issued rest).
Proof.
  rewrite calls_cycle. eexists. split; [reflexivity|].
  destruct (succeeded (acts w 0%nat)) as [[|] | e];
    [apply react_never_looks | cbn; tauto | cbn; tauto].
Qed.






(** X10.  A look that succeeded but cannot be read (an agent that is not
    an object, an inventory that cannot be iterated, an entry that is not
    an object, a quantity that is not a number) makes the pass raise right
    after the pause that follows the look: nothing else is handed to
    [act]. *)
Theorem unreadable_look_raises (w : world) (c : Z) (e : exn) :
  succeeded (look_reply w) = Ok true ->
  read (look_reply w) = Err e ->
  outcome (cycle c) w = Err e
  /\ calls (cycle c) w = [Log (MsgCycle c); Act (action "look"); Sleep (NInt 6)].
Proof.
  unfold look_reply. intros Hok Hread.
  rewrite outcome_cycle, calls_cycle, Hok, outcome_react, calls_react, Hread.
  split; reflexivity.
Qed.

Lemma unreadable_look_raises_witness :
  let s := JDict [("success", JBool true);
                  ("inventory", JList [JDict [("resource", JStr "kelp");
                                              ("quantity", JStr "3")]])] in
  let w := looking_at s 0%float 0 in
  succeeded (look_reply w) = Ok true
  /\ read (look_reply w) = Err TypeError
  /\ outcome (cycle 1) w = Err TypeError
  /\ calls (cycle 1) w = [Log (MsgCycle 1); Act (action "look"); Sleep (NInt 6)].
Proof.
  cbv zeta. repeat (split; [reflexivity|]).
  apply (unreadable_look_raises
           (looking_at
              (JDict [("success", JBool true);
                      ("inventory", JList [JDict [("resource", JStr "kelp");
                                                  ("quantity", JStr "3")]])])
              0%float 0) 1 TypeError);
    reflexivity.
Defined.

Lemma other_zone_cases (st : reading) :
  other_zone st = "trading_post" \/ other_zone st = "shallows".
Proof.
  unfold other_zone. destruct (py_eq_str (zone st) "shallows"); auto.
Qed.

Lemma react_requests_known (s : json) (w : world) (b : json) :
  In b (issued (calls (react s) w)) ->
  In b known_requests \/ exists t, b = action_on "sell" t.
Proof.
  rewrite calls_react. unfold known_requests.
  destruct (read s) as [st | e]; [|intros []].
  cbn [issued].
  destruct (is_dead st) as [[|] | e];
    [cbn; intros [<- | []]; left; cbn; auto 10 | | intros []].
  destruct (in_combat s) as [[|] | e];
    [cbn; intros [<- | []]; left; cbn; auto 10 | | intros []].
  destruct (low_resources st) as [[|] | e];
    [cbn; intros [<- | []]; left; cbn; auto 10 | | intros []].
  destruct (inventory_full st) as [[|] | e]; [| | intros []].
  - destruct (issued_sell st w) as (targets & _ & ->).
    rewrite in_app_iff, in_map_iff. intros [H | (t & <- & _)]; [|eauto].
    unfold go_to_market in H.
    destruct (py_ne_str (zone st) "trading_post"); cbn in H;
      [destruct H as [<- | []]; left; cbn; auto 10 | destruct H].
  - pose proof (issued_random_action s st w) as H. unfold random_requests in H.
    cbn [In] in H.
    destruct H as [<- | [<- | [<- | [<- | [<- | [<- | []]]]]]];
      cbn [In]; intros Hb; try (destruct Hb as [<- | []]); try (destruct Hb);
      left; cbn; auto 12.
    destruct (other_zone_cases st) as [-> | ->]; auto 12.
Qed.

(** X11.  In every world, whatever a pass hands to [act] is one of nine
    fixed requests (look, rest, flee, status, quest list, move to
    trading_post or shallows, gather seaweed or sand_dollars) or a sell:
    the bot never issues another action, and never moves or gathers
    elsewhere. *)
Theorem requests_are_known (w : world) (c : Z) (b : json) :
  In b (issued (calls (cycle c) w)) ->
  In b known_requests \/ exists t, b = action_on "sell" t.
Proof.
  rewrite calls_cycle. cbn [issued In]. intros [<- | H].
  - left. cbn. auto.
  - destruct (succeeded (acts w 0%nat)) as [[|] | e]; [| destruct H ..].
    exact (react_requests_known _ _ _ H).
Qed.

Lemma requests_are_known_witness :
  let w := looking_at (snapshot 80 100 30 "deep_trench" "Calm water." [])
             0.5%float 0 in
  In (action_on "move" (JStr "shallows")) (issued (calls (cycle 1) w))
  /\ (In (action_on "move" (JStr "shallows")) known_requests
      \/ exists t, action_on "move" (JStr "shallows") = action_on "sell" t).
Proof.
  cbv zeta.
  assert (H : In (action_on "move" (JStr "shallows"))
                (issued (calls (cycle 1)
                   (looking_at (snapshot 80 100 30 "deep_trench" "Calm water." [])
                      0.5%float 0)))).
  { right. left. reflexivity. }
  split; [exact H|].
  exact (requests_are_known _ 1 _ H).
Defined.

(** *** The inventory count *)

Lemma sum_quantities_integers (items : list json) (qs : list Z) (t : Z) :
  Forall2 counts_for items qs ->
  sum_quantities items (JInt t) = Ok (JInt (t + total qs)).
Proof.
  intros H. revert t. induction H as [| entry q items qs Hq _ IH]; intros t.
  - cbn. rewrite Z.add_0_r. reflexivity.
  - destruct Hq as (fields & -> & Hq). cbn [sum_quantities dict_get rbind].
    destruct (lookup "quantity" fields) as [v |]; subst;
      cbn [py_add as_num num_add rbind of_num]; rewrite IH; cbn [total fold_right];
      do 2 f_equal; fold (total qs); lia.
Qed.

Lemma read_inventory (s : json) (st : reading) :
  read s = Ok st ->
  exists items,
    py_iter (inv st) = Ok items
    /\ sum_quantities items (JInt 0) = Ok (inv_count st).
Proof.
  unfold read. intros H.
  repeat match type of H with
         | rbind ?r _ = _ =>
             let E := fresh "E" in
             destruct r eqn:E; cbn [rbind] in H; [|discriminate]
         end.
  injection H as <-. cbn [inv inv_count]. eauto.
Qed.

(** X12.  When the inventory of the reply is a list of objects with
    integer quantities (a missing quantity counting for 0), [inv_count] is
    the exact sum of the quantities, and the sell test is true exactly
    when that sum is at least 8. *)
Theorem inventory_count_is_exact
    (s : json) (st : reading) (items : list json) (qs : list Z) :
  read s = Ok st ->
  inv st = JList items ->
  Forall2 counts_for items qs ->
  inv_count st = JInt (total qs)
  /\ inventory_full st = Ok (8 <=? total qs).
Proof.
  intros Hread Hinv Hqs.
  destruct (read_inventory _ _ Hread) as (items' & Hiter & Hsum).
  rewrite Hinv in Hiter. cbn [py_iter] in Hiter. injection Hiter as <-.
  rewrite (sum_quantities_integers _ _ 0 Hqs) in Hsum. injection Hsum as Hsum.
  cbn [Z.add] in Hsum.
  split; [symmetry; exact Hsum|].
  unfold inventory_full. rewrite <- Hsum. reflexivity.
Qed.

Lemma inventory_count_is_exact_witness :
  let items := [item "kelp" 5; JDict [("resource", JStr "shell")]; item "pearl" 2] in
  let s := snapshot 80 100 30 "shallows" "Calm water." items in
  read s = Ok (reading_of s)
  /\ inv (reading_of s) = JList items
  /\ Forall2 counts_for items [5; 0; 2]
  /\ inv_count (reading_of s) = JInt (total [5; 0; 2])
  /\ inventory_full (reading_of s) = Ok (8 <=? total [5; 0; 2]).
Proof.
  cbv zeta.
  assert (H : Forall2 counts_for
                [item "kelp" 5; JDict [("resource", JStr "shell")]; item "pearl" 2]
                [5; 0; 2]).
  { repeat constructor; eexists; (split; [reflexivity|]); reflexivity. }
  split; [reflexivity|]. split; [reflexivity|]. split; [exact H|].
  exact (inventory_count_is_exact
           (snapshot 80 100 30 "shallows" "Calm water."
              [item "kelp" 5; JDict [("resource", JStr "shell")]; item "pearl" 2])
           (reading_of
              (snapshot 80 100 30 "shallows" "Calm water."
                 [item "kelp" 5; JDict [("resource", JStr "shell")];
                  item "pearl" 2]))
           [item "kelp" 5; JDict [("resource", JStr "shell")]; item "pearl" 2]
           [5; 0; 2] eq_refl eq_refl H).
Defined.

(** *** The pace of the loop *)

Lemma total_app (xs ys : list Z) : total (xs ++ ys) = total xs + total ys.
Proof.
  induction xs as [| x xs IH]; cbn [app total fold_right]; [reflexivity|].
  fold (total (xs ++ ys)) (total xs). lia.
Qed.

Lemma paused_app (tr1 tr2 : list effect) :
  paused (tr1 ++ tr2) = paused tr1 + paused tr2.
Proof.
  unfold paused. rewrite slept_app, map_app. apply total_app.
Qed.

Lemma paused_sell_calls (targets : list json) :
  paused (sell_calls targets) = 6 * Z.of_nat (List.length targets).
Proof.
  induction targets as [| t rest IH]; [reflexivity|].
  change (sell_calls (t :: rest))
    with ([Act (action_on "sell" t); Sleep (NInt 6)] ++ sell_calls rest).
  rewrite paused_app, IH. cbn [List.length]. change (paused [_; _]) with 6. lia.
Qed.

Lemma outcome_sell_each (items : list json) (w : world) :
  outcome (sell_each items) w = Ok tt ->
  List.length (sold items) = List.length items.
Proof.
  revert w. induction items as [| entry rest IH]; intros w; [reflexivity|].
  cbn [sell_each sold].
  destruct (subscript entry "resource") as [target | e]; steps; [|discriminate].
  intros H. cbn [List.length]. f_equal. exact (IH _ H).
Qed.

Lemma outcome_sell (st : reading) (w : world) :
  outcome (sell st) w = Ok tt ->
  exists first3 items,
    py_slice_to (inv st) 3 = Ok first3
    /\ py_iter first3 = Ok items
    /\ List.length (sold items) = List.length items.
Proof.
  unfold sell. steps.
  destruct (py_ne_str (zone st) "trading_post"); steps;
    (destruct (py_slice_to (inv st) 3) as [first3 | e]; steps; [|discriminate]);
    (destruct (py_iter first3) as [items | e] eqn:Hi; steps; [|discriminate]);
    intros H; exists first3, items;
    (split; [reflexivity|]); (split; [exact Hi|]);
    exact (outcome_sell_each _ _ H).
Qed.

Lemma paused_sell (st : reading) (w : world) :
  exists k,
    (k <= 3)%nat
    /\ paused (calls (sell st) w) = paused (go_to_market st) + 6 * Z.of_nat k
    /\ (outcome (sell st) w = Ok tt ->
        forall items, inv st = JList items ->
        k = Nat.min 3 (List.length items)).
Proof.
  rewrite calls_sell.
  change (Log MsgSelling :: ?l) with ([Log MsgSelling] ++ l).
  rewrite !paused_app. change (paused [Log MsgSelling]) with 0.
  destruct (py_slice_to (inv st) 3) as [first3 | e] eqn:Hs.
  - destruct (py_iter first3) as [items | e] eqn:Hi.
    + exists (List.length (sold items)). split; [|split].
      * pose proof (sold_length items).
        pose proof (slice_iter_length _ _ _ _ Hs Hi). lia.
      * rewrite paused_sell_calls. lia.
      * intros Hok l Hl.
        destruct (outcome_sell _ _ Hok) as (f3 & its & Hs' & Hi' & Hlen).
        assert (f3 = first3) by congruence. subst f3.
        assert (its = items) by congruence. subst its.
        assert (Hitems : items = firstn 3 l).
        { rewrite Hl in Hs. cbn [py_slice_to] in Hs.
          assert (Hf : first3 = JList (firstn 3 l)) by congruence.
          rewrite Hf in Hi. cbn [py_iter] in Hi. congruence. }
        rewrite Hlen, Hitems. apply length_firstn.
    + exists O. split; [lia|]. split; [reflexivity|].
      intros Hok. destruct (outcome_sell _ _ Hok) as (f3 & its & Hs' & Hi' & _).
      rewrite Hs in Hs'. injection Hs' as <-. rewrite Hi in Hi'. discriminate.
  - exists O. split; [lia|]. split; [reflexivity|].
    intros Hok. destruct (outcome_sell _ _ Hok) as (f3 & its & Hs' & _).
    rewrite Hs in Hs'. discriminate.
Qed.

Lemma paused_go_to_market (st : reading) :
  paused (go_to_market st) = 0 \/ paused (go_to_market st) = 6.
Proof.
  unfold go_to_market. destruct (py_ne_str (zone st) "trading_post"); auto.
Qed.

Lemma full_inventory_not_empty (s : json) (st : reading) :
  read s = Ok st -> inventory_full st = Ok true ->
  exists entry rest, inv st = JList (entry :: rest).
Proof.
  intros Hread Hfull.
  destruct (full_inventory_is_list _ _ Hread Hfull) as [items Hinv].
  destruct (read_inventory _ _ Hread) as (items' & Hiter & Hsum).
  rewrite Hinv in Hiter. cbn [py_iter] in Hiter. injection Hiter as <-.
  destruct items as [| entry rest]; [|eauto].
  cbn in Hsum. injection Hsum as Hsum. unfold inventory_full in Hfull.
  rewrite <- Hsum in Hfull. discriminate.
Qed.

Lemma paused_random_branch (s : json) (st : reading) (r : float) (w : world) :
  paused (calls (random_branch s st r) w) = 0
  \/ paused (calls (random_branch s st r) w) = 6.
Proof.
  rewrite calls_random_branch.
  destruct (r <? 0.4)%float.
  - rewrite calls_gather.
    destruct (dict_get s "narrative" (JStr "")) as [narr | e]; [|auto].
    destruct (py_contains "Seaweed" narr) as [[|] | e];
      destruct (py_contains "Sand Dollars" narr) as [[|] | e']; auto.
  - destruct (r <? 0.7)%float; [auto|].
    destruct (r <? 0.85)%float; auto.
Qed.

Lemma paused_random_action (s : json) (st : reading) (w : world) :
  paused (calls (random_action s st) w) <= 26
  /\ (outcome (random_action s st) w = Ok tt ->
      10 <= paused (calls (random_action s st) w)).
Proof.
  rewrite calls_random_action, outcome_random_action.
  change (RandomRandom :: ?l) with ([RandomRandom] ++ l).
  rewrite !paused_app. change (paused [RandomRandom]) with 0.
  pose proof (paused_random_branch s st (draws w 0%nat) (skip_draw w)) as Hb.
  pose proof (randint_of_range 10 20 (picks w 0%nat) ltac:(lia)) as Hv.
  destruct (outcome (random_branch s st (draws w 0%nat)) (skip_draw w)) as [[] | e].
  - unfold wait_calls.
    change (paused [RandInt 10 20; Log (MsgWait ?v); Sleep (NInt ?v)]) with (v + 0).
    split; [|intros _]; lia.
  - change (paused []) with 0. split; [lia | discriminate].
Qed.

Lemma paused_react (s : json) (w : world) :
  paused (calls (react s) w) <= 65
  /\ (outcome (react s) w = Ok tt -> 6 <= paused (calls (react s) w)).
Proof.
  rewrite calls_react, outcome_react.
  destruct (read s) as [st | e] eqn:Hread;
    [|change (paused []) with 0; split; [lia | discriminate]].
  change (Log ?m :: ?l) with ([Log m] ++ l).
  rewrite paused_app. change (paused [Log ?m]) with 0.
  destruct (is_dead st) as [[|] | e];
    [ change (paused [_; _; _]) with 65; lia
    | | change (paused []) with 0; split; [lia | discriminate] ].
  destruct (in_combat s) as [[|] | e];
    [ change (paused [_; _; _]) with 6; lia
    | | change (paused []) with 0; split; [lia | discriminate] ].
  destruct (low_resources st) as [[|] | e];
    [ change (paused [_; _; _]) with 65; lia
    | | change (paused []) with 0; split; [lia | discriminate] ].
  destruct (inventory_full st) as [[|] | e] eqn:Hfull;
    [ | | change (paused []) with 0; split; [lia | discriminate] ].
  - destruct (paused_sell st w) as (k & Hk & -> & Hok).
    pose proof (paused_go_to_market st) as Hm.
    split; [lia|]. intros H.
    destruct (full_inventory_not_empty _ _ Hread Hfull) as (entry & rest & Hinv).
    pose proof (Hok H _ Hinv) as Hmin. cbn [List.length] in Hmin.
    assert (1 <= k)%nat by lia. lia.
  - destruct (paused_random_action s st w) as [Hmax Hmin].
    split; [lia|]. intros H. specialize (Hmin H). lia.
Qed.

(** X13.  The pace of a pass, counting the pauses of [run] itself: in
    every world a pass sleeps at most 71 seconds in all, and a pass that
    ends without an exception sleeps at least 12 seconds, so that the loop
    never spins. *)
Theorem pass_sleeps_12_to_71_seconds (w : world) (c : Z) :
  paused (calls (cycle c) w) <= 71
  /\ (outcome (cycle c) w = Ok tt -> 12 <= paused (calls (cycle c) w)).
Proof.
  rewrite calls_cycle, outcome_cycle.
  change (Log ?m :: Act ?b :: Sleep (NInt 6) :: ?l)
    with ([Log m; Act b; Sleep (NInt 6)] ++ l).
  rewrite paused_app. change (paused [_; _; _]) with 6.
  destruct (succeeded (acts w 0%nat)) as [[|] | e].
  - destruct (paused_react (acts w 0%nat) (skip_act w)) as [Hmax Hmin].
    split; [lia|]. intros H. specialize (Hmin H). lia.
  - change (paused [_]) with 10. lia.
  - change (paused []) with 0. split; [lia | discriminate].
Qed.

(** *** The loop and its counter *)

Lemma passes_app (tr1 tr2 : list effect) :
  passes (tr1 ++ tr2) = passes tr1 ++ passes tr2.
Proof.
  induction tr1 as [| c tr1 IH]; cbn [app passes]; [reflexivity|].
  destruct c as [| | | | | m]; try exact IH.
  destruct m; cbn [app]; rewrite ?IH; reflexivity.
Qed.

Lemma passes_sell_calls (targets : list json) : passes (sell_calls targets) = [].
Proof.
  induction targets as [| t rest IH]; cbn [sell_calls flat_map app passes];
    [reflexivity | exact IH].
Qed.

Lemma passes_react (s : json) (w : world) : passes (calls (react s) w) = [].
Proof.
  rewrite calls_react.
  destruct (read s) as [st | e]; [|reflexivity]. cbn [passes].
  destruct (is_dead st) as [[|] | e]; try reflexivity.
  destruct (in_combat s) as [[|] | e]; try reflexivity.
  destruct (low_resources st) as [[|] | e]; try reflexivity.
  destruct (inventory_full st) as [[|] | e]; try reflexivity.
  - rewrite calls_sell. cbn [passes]. rewrite passes_app.
    replace (passes (go_to_market st)) with (@nil Z)
      by (unfold go_to_market; destruct (py_ne_str _ _); reflexivity).
    destruct (py_slice_to (inv st) 3) as [first3 | e]; [|reflexivity].
    destruct (py_iter first3) as [items | e]; [|reflexivity].
    apply passes_sell_calls.
  - rewrite calls_random_action. cbn [passes]. rewrite passes_app.
    rewrite calls_random_branch.
    replace (passes (if (draws w 0%nat <? 0.4)%float then _ else _)) with (@nil Z).
    + destruct (outcome _ _); reflexivity.
    + destruct (draws w 0%nat <? 0.4)%float.
      * rewrite calls_gather.
        destruct (dict_get s "narrative" (JStr "")) as [narr | e]; [|reflexivity].
        destruct (py_contains "Seaweed" narr) as [[|] | e];
          destruct (py_contains "Sand Dollars" narr) as [[|] | e']; reflexivity.
      * destruct (draws w 0%nat <? 0.7)%float; [reflexivity|].
        destruct (draws w 0%nat <? 0.85)%float; reflexivity.
Qed.

Lemma passes_cycle (c : Z) (w : world) : passes (calls (cycle c) w) = [c].
Proof.
  rewrite calls_cycle. cbn [passes]. f_equal.
  destruct (succeeded (acts w 0%nat)) as [[|] | e];
    [apply passes_react | reflexivity | reflexivity].
Qed.

Lemma passes_loop (n : nat) (c : Z) (w : world) :
  exists k,
    (k <= n)%nat
    /\ passes (calls (loop n c) w) = map (fun i => c + Z.of_nat i) (seq 1 k)
    /\ (outcome (loop n c) w = Ok tt -> k = n).
Proof.
  revert c w. induction n as [| n IH]; intros c w.
  - exists O. repeat split; reflexivity || lia.
  - cbn [loop]. rewrite calls_bind, outcome_bind, passes_app, passes_cycle.
    destruct (outcome (cycle (c + 1)) w) as [[] | e].
    + destruct (IH (c + 1) (world_after (cycle (c + 1)) w)) as (k & Hk & Hp & Hok).
      exists (S k). split; [lia|]. split.
      * rewrite Hp. cbn [seq map app]. f_equal.
        rewrite <- (seq_shift k 1), map_map. apply map_ext. intros i. lia.
      * intros H. f_equal. exact (Hok H).
    + exists 1%nat. split; [lia|]. split; [reflexivity | discriminate].
Qed.

(** X14.  [run] logs its start once, then numbers the passes it begins
    1, 2, 3, ... without a gap or a repeat: each pass logs its number once;
    a run cut after [n] passes that ended without an exception has begun
    exactly [n] of them. *)
Theorem run_numbers_its_passes (n : nat) (w : world) :
  exists rest k,
    calls (run n) w = Log MsgBotStart :: rest
    /\ (k <= n)%nat
    /\ passes rest = map Z.of_nat (seq 1 k)
    /\ (outcome (run n) w = Ok tt -> k = n).
Proof.
  unfold run. steps.
  destruct (passes_loop n 0 w) as (k & Hk & Hp & Hok).
  exists (calls (loop n 0) w), k. repeat split; auto.
Qed.

(* ===================================================================== *)
(** ** Further properties: [run] together with [act] *)
(* ===================================================================== *)

(** [act] consumes replies of the server only. *)
Lemma act_keeps_randomness (body : json) (retries : nat) (w : world) :
  draws (world_after (act body retries) w) = draws w
  /\ picks (world_after (act body retries) w) = picks w.
Proof.
  revert w. induction retries as [| n IH]; intros w; [split; reflexivity|].
  unfold world_after in *. rewrite exec_act_step.
  destruct (attempt_cases body w) as (r & tr & -> & _ & Hr).
  destruct Hr as [-> | (d & -> & _)]; [|split; reflexivity].
  specialize (IH (skip_http w)).
  destruct (exec (act body n) (skip_http w)) as [[r' w''] tr'].
  exact IH.
Qed.

Lemma failure_is_returned :
  exists body w, outcome (act body default_retries) w = Ok failure.
Proof. exists JNull, (answering []). reflexivity. Qed.

(** Carrying out the calls of [act] refines the program that calls it: the
    run of [inline p] in a world is the run of [p] against some oracle for
    [act], every answer of which is a value that [act] returns, and its
    trace is that of [p] with each call expanded. *)
Lemma inline_refines {A} (p : prog A) :
  no_post p ->
  forall w,
  exists a : nat -> json,
    (forall i, exists body w', outcome (act body default_retries) w' = Ok (a i))
    /\ forall h,
         let w1 := {| http := h; acts := a; draws := draws w; picks := picks w |} in
         outcome p w1 = outcome (inline p) w
         /\ expands (calls p w1) (calls (inline p) w).
Proof.
  induction p as [x | e | c k IH]; intros Hp w.
  - exists (fun _ => failure). split; [intros _; apply failure_is_returned|].
    intros h. split; [reflexivity | constructor].
  - exists (fun _ => failure). split; [intros _; apply failure_is_returned|].
    intros h. split; [reflexivity | constructor].
  - destruct Hp as [Hc Hk].
    destruct c as [body | body | secs | | lo hi | m]; [destruct Hc | | | | |].
    + (* a call of act *)
      cbn [inline callee].
      destruct (act_returns body default_retries w) as (d & n & Hd & _).
      destruct (act_keeps_randomness body default_retries w) as [Hdraws Hpicks].
      destruct (IH d (Hk d) (world_after (act body default_retries) w))
        as (a & Ha & Hsim).
      rewrite Hdraws, Hpicks in Hsim.
      exists (cons_stream d a). split.
      * intros [| i]; [exists body, w; exact Hd | apply Ha].
      * intros h. cbv zeta. rewrite outcome_vis, calls_vis, outcome_bind, calls_bind.
        change (@outcome (answer (Act body))) with (@outcome json).
        change (@world_after (answer (Act body))) with (@world_after json).
        change (@calls (answer (Act body))) with (@calls json).
        rewrite Hd.
        cbn [respond fst snd acts skip_act http draws picks].
        change (tail (cons_stream d a)) with a.
        change (cons_stream d a 0%nat) with d.
        destruct (Hsim h) as [Hout Hexp]. split; [exact Hout|].
        apply expands_act. exact Hexp.
    + destruct (IH tt (Hk tt) w) as (a & Ha & Hsim).
      exists a. split; [exact Ha|]. intros h. cbv zeta. cbn [inline callee].
      rewrite !outcome_vis, !calls_vis. cbn [respond fst snd].
      destruct (Hsim h) as [Hout Hexp]. split; [exact Hout|].
      apply expands_same; [reflexivity | exact Hexp].
    + destruct (IH (draws w 0%nat) (Hk _) (skip_draw w)) as (a & Ha & Hsim).
      exists a. split; [exact Ha|]. intros h. cbv zeta. cbn [inline callee].
      rewrite !outcome_vis, !calls_vis.
      cbn [respond fst snd skip_draw http acts draws picks] in *.
      destruct (Hsim h) as [Hout Hexp]. split; [exact Hout|].
      apply expands_same; [reflexivity | exact Hexp].
    + destruct (IH (randint_of lo hi (picks w 0%nat)) (Hk _) (skip_pick w))
        as (a & Ha & Hsim).
      exists a. split; [exact Ha|]. intros h. cbv zeta. cbn [inline callee].
      rewrite !outcome_vis, !calls_vis.
      cbn [respond fst snd skip_pick http acts draws picks] in *.
      destruct (Hsim h) as [Hout Hexp]. split; [exact Hout|].
      apply expands_same; [reflexivity | exact Hexp].
    + destruct (IH tt (Hk tt) w) as (a & Ha & Hsim).
      exists a. split; [exact Ha|]. intros h. cbv zeta. cbn [inline callee].
      rewrite !outcome_vis, !calls_vis. cbn [respond fst snd].
      destruct (Hsim h) as [Hout Hexp]. split; [exact Hout|].
      apply expands_same; [reflexivity | exact Hexp].
Qed.

Lemma no_post_bind {A B} (p : prog A) (f : A -> prog B) :
  no_post p -> (forall a, no_post (f a)) -> no_post (bind p f).
Proof.
  induction p as [x | e | c k IH]; cbn [bind no_post]; intros Hp Hf.
  - apply Hf.
  - exact I.
  - destruct Hp as [Hc Hk]. split; [exact Hc|]. intros x. apply IH; [apply Hk | exact Hf].
Qed.

Lemma no_post_lift {A} (r : result A) : no_post (lift r).
Proof. destruct r; exact I. Qed.

Lemma no_post_time_sleep (v : json) : no_post (time_sleep v).
Proof.
  unfold time_sleep. apply no_post_bind; [apply no_post_lift|].
  intros secs. cbn. auto.
Qed.

Lemma no_post_log (m : message) : no_post (log m).
Proof. cbn. auto. Qed.

Lemma no_post_call_act (body : json) : no_post (call_act body).
Proof. cbn. auto. Qed.

Ltac no_posts :=
  repeat match goal with
         | |- no_post (lift _) => apply no_post_lift
         | |- no_post (time_sleep _) => apply no_post_time_sleep
         | |- no_post (log _) => apply no_post_log
         | |- no_post (call_act _) => apply no_post_call_act
         | |- no_post (Ret _) => exact I
         | |- no_post (if ?b then _ else _) => destruct b
         | |- no_post (bind _ _) => apply no_post_bind; [|intros ?]
         end.

Lemma no_post_sell_each (items : list json) : no_post (sell_each items).
Proof.
  induction items as [| entry rest IH]; cbn [sell_each]; [exact I|].
  no_posts. exact IH.
Qed.

Lemma no_post_cycle (c : Z) : no_post (cycle c).
Proof.
  unfold cycle, react, sell, random_action, random_branch, wait, gather, move,
    quest, status.
  no_posts; try apply no_post_sell_each; try (cbn; auto; fail).
  match goal with
  | |- no_post (match (if ?s then _ else _) ++ (if ?d then _ else _) with
                | _ => _ end) => destruct s, d
  end; cbn [app]; no_posts.
Qed.

Lemma no_post_loop (n : nat) (c : Z) : no_post (loop n c).
Proof.
  revert c. induction n as [| n IH]; intros c; cbn [loop]; [exact I|].
  apply no_post_bind; [apply no_post_cycle | intros _; apply IH].
Qed.

(** X15.  [run] with its calls of [act] carried out behaves as [run]
    does against some oracle for [act]: for every world there are answers,
    each of them a value that [act] returns, such that the cut run ends the
    same way and its trace is that of [run] with every call [act(body)]
    replaced by the requests, log lines and sleeps of [act(body)].  Every
    property proved of [run] for all oracles therefore holds of the script
    as a whole. *)
Theorem run_with_act_refines_run (n : nat) (w : world) :
  exists a : nat -> json,
    (forall i, exists body w', outcome (act body default_retries) w' = Ok (a i))
    /\ forall h,
         let w1 := {| http := h; acts := a; draws := draws w; picks := picks w |} in
         outcome (run n) w1 = outcome (inline (run n)) w
         /\ expands (calls (run n) w1) (calls (inline (run n)) w).
Proof.
  apply inline_refines.
  unfold run. apply no_post_bind; [apply no_post_log|].
  intros _. apply no_post_loop.
Qed.

Lemma no_post_posted {A} (p : prog A) (w : world) :
  no_post p -> posted (calls p w) = [].
Proof.
  revert w. induction p as [x | e | c k IH]; intros w Hp; [reflexivity ..|].
  destruct Hp as [Hc Hk]. rewrite calls_vis.
  destruct c; [destruct Hc | ..]; cbn [posted]; apply IH; apply Hk.
Qed.

Lemma act_posts_its_body (body : json) (retries : nat) (w : world) (b : json) :
  In b (posted (calls (act body retries) w)) -> b = body.
Proof.
  destruct (act_returns body retries w) as (d & k & _ & -> & _).
  intros H. exact (repeat_spec _ _ _ H).
Qed.

Lemma act_posts_at_most (body : json) (retries : nat) (w : world) :
  (List.length (posted (calls (act body retries) w)) <= retries)%nat.
Proof.
  destruct (act_returns body retries w) as (d & k & _ & -> & Hk & _).
  rewrite repeat_length. exact Hk.
Qed.

(** The requests of an expanded trace are those of the calls of [act] in
    the trace it expands. *)
Lemma expands_posted (tr1 tr2 : list effect) (b : json) :
  expands tr1 tr2 -> posted tr1 = [] ->
  In b (posted tr2) -> In b (issued tr1).
Proof.
  induction 1 as [| c tr1 tr2 Hc _ IH | body w tr1 tr2 _ IH]; intros Hnone Hb.
  - exact Hb.
  - destruct c; cbn [callee] in Hc; try discriminate;
      cbn [posted issued] in *; try discriminate; auto.
  - cbn [posted issued] in *. rewrite posted_app, in_app_iff in Hb.
    destruct Hb as [Hb | Hb].
    + left. symmetry. exact (act_posts_its_body _ _ _ _ Hb).
    + right. exact (IH Hnone Hb).
Qed.

Lemma expands_posted_length (tr1 tr2 : list effect) :
  expands tr1 tr2 -> posted tr1 = [] ->
  (List.length (posted tr2) <= default_retries * List.length (issued tr1))%nat.
Proof.
  induction 1 as [| c tr1 tr2 Hc _ IH | body w tr1 tr2 _ IH]; intros Hnone.
  - cbn. lia.
  - destruct c; cbn [callee] in Hc; try discriminate;
      cbn [posted issued] in *; try discriminate; auto.
  - cbn [posted issued List.length] in *. rewrite posted_app, length_app.
    pose proof (act_posts_at_most body default_retries w).
    specialize (IH Hnone). lia.
Qed.

Lemma issued_at_most_five (w : world) (c : Z) :
  (List.length (issued (calls (cycle c) w)) <= 5)%nat.
Proof.
  rewrite calls_cycle. cbn [issued List.length].
  destruct (succeeded (acts w 0%nat)) as [[|] | e]; [| cbn; lia ..].
  rewrite calls_react.
  destruct (read (acts w 0%nat)) as [st | e]; [| cbn; lia]. cbn [issued].
  destruct (is_dead st) as [[|] | e]; [cbn; lia | | cbn; lia].
  destruct (in_combat (acts w 0%nat)) as [[|] | e]; [cbn; lia | | cbn; lia].
  destruct (low_resources st) as [[|] | e]; [cbn; lia | | cbn; lia].
  destruct (inventory_full st) as [[|] | e]; [| | cbn; lia].
  - destruct (issued_sell st (skip_act w)) as (targets & Hlen & ->).
    rewrite length_app, length_map. unfold go_to_market.
    destruct (py_ne_str (zone st) "trading_post"); cbn [issued List.length]; lia.
  - pose proof (issued_random_action (acts w 0%nat) st (skip_act w)) as H.
    unfold random_requests in H. cbn [In] in H.
    destruct H as [<- | [<- | [<- | [<- | [<- | [<- | []]]]]]]; cbn [List.length]; lia.
Qed.

(** X16.  Down to the HTTP requests: in every world, each body that a pass
    POSTs is one of the nine fixed requests or a sell, and a pass sends at
    most 15 requests (at most five calls of [act], three attempts each). *)
Theorem pass_posts_known_requests (w : world) (c : Z) :
  (forall b, In b (posted (calls (inline (cycle c)) w)) ->
     In b known_requests \/ exists t, b = action_on "sell" t)
  /\ (List.length (posted (calls (inline (cycle c)) w)) <= 15)%nat.
Proof.
  destruct (inline_refines (cycle c) (no_post_cycle c) w) as (a & _ & Hsim).
  destruct (Hsim (http w)) as [_ Hexp]. cbv zeta in Hexp.
  set (w1 := {| http := http w; acts := a; draws := draws w; picks := picks w |}) in *.
  pose proof (no_post_posted (cycle c) w1 (no_post_cycle c)) as Hnone.
  split.
  - intros b Hb. pose proof (expands_posted _ _ _ Hexp Hnone Hb) as Hi.
    rewrite calls_cycle in Hi. cbn [issued In] in Hi.
    destruct Hi as [<- | Hi]; [left; cbn; auto|].
    destruct (succeeded (acts w1 0%nat)) as [[|] | e]; [| destruct Hi ..].
    exact (react_requests_known _ _ _ Hi).
  - pose proof (expands_posted_length _ _ Hexp Hnone) as H1.
    pose proof (issued_at_most_five w1 c) as H2.
    unfold default_retries in H1. lia.
Qed.

Lemma exec_act_unreachable (body : json) (w : world) :
  unreachable w ->
  exists e0 e1 e2,
    exec (act body default_retries) w =
    (Ok failure, skip_http (skip_http (skip_http w)),
     (Post body :: backoff e0) ++ (Post body :: backoff e1)
     ++ (Post body :: backoff e2)).
Proof.
  intros H. destruct (H 0%nat) as [e0 H0], (H 1%nat) as [e1 H1], (H 2%nat) as [e2 H2].
  exists e0, e1, e2. unfold default_retries.
  rewrite exec_act_step, exec_attempt, H0.
  rewrite exec_act_step, exec_attempt.
  change (http (skip_http w) 0%nat) with (http w 1%nat). rewrite H1.
  rewrite exec_act_step, exec_attempt.
  change (http (skip_http (skip_http w)) 0%nat) with (http w 2%nat). rewrite H2.
  reflexivity.
Qed.

(** X17.  When the server cannot be reached (every request raises), a
    pass sends the look three times and nothing else, sleeps 5 seconds
    after each failure, then 6 and 10 seconds, and ends normally: the bot
    keeps polling and never sends a game action. *)
Theorem unreachable_server_only_looks (w : world) (c : Z) :
  unreachable w ->
  outcome (inline (cycle c)) w = Ok tt
  /\ posted (calls (inline (cycle c)) w) =
     [action "look"; action "look"; action "look"]
  /\ slept (calls (inline (cycle c)) w) =
     [NInt 5; NInt 5; NInt 5; NInt 6; NInt 10].
Proof.
  intros H.
  destruct (exec_act_unreachable (action "look") w H) as (e0 & e1 & e2 & Hact).
  unfold cycle. cbn [bind log perform call_act inline callee].
  rewrite outcome_vis, calls_vis. cbn [respond fst snd].
  rewrite outcome_bind, calls_bind.
  change (@outcome (answer (Act (action "look")))) with (@outcome json).
  change (@world_after (answer (Act (action "look")))) with (@world_after json).
  change (@calls (answer (Act (action "look")))) with (@calls json).
  unfold outcome, world_after, calls. rewrite Hact. cbn [fst snd].
  repeat split.
Qed.

Lemma unreachable_server_only_looks_witness :
  unreachable (answering [])
  /\ outcome (inline (cycle 1)) (answering []) = Ok tt
  /\ posted (calls (inline (cycle 1)) (answering [])) =
     [action "look"; action "look"; action "look"]
  /\ slept (calls (inline (cycle 1)) (answering [])) =
     [NInt 5; NInt 5; NInt 5; NInt 6; NInt 10].
Proof.
  assert (H : unreachable (answering [])).
  { intros i. exists RequestError. destruct i; reflexivity. }
  split; [exact H|].
  exact (unreachable_server_only_looks (answering []) 1 H).
Defined.

(** *** The order of the tests *)

Lemma sell_block_requests (st : reading) (w : world) (b : json) :
  In b (issued (calls (sell st) w)) ->
  b = action_on "move" (JStr "trading_post") \/ exists t, b = action_on "sell" t.
Proof.
  destruct (issued_sell st w) as (targets & _ & ->).
  rewrite in_app_iff, in_map_iff. intros [H | (t & <- & _)]; [|eauto].
  unfold go_to_market in H.
  destruct (py_ne_str (zone st) "trading_post"); cbn in H;
    [destruct H as [<- | []]; auto | destruct H].
Qed.

Lemma random_block_never_sells (s : json) (st : reading) (w : world) (t : json) :
  ~ In (action_on "sell" t) (issued (calls (random_action s st) w)).
Proof.
  pose proof (issued_random_action s st w) as H. unfold random_requests in H.
  cbn [In] in H.
  destruct H as [<- | [<- | [<- | [<- | [<- | [<- | []]]]]]];
    cbn [In]; intuition discriminate.
Qed.

Lemma random_block_never_flees (s : json) (st : reading) (w : world) :
  ~ In (action "flee") (issued (calls (random_action s st) w)).
Proof.
  pose proof (issued_random_action s st w) as H. unfold random_requests in H.
  cbn [In] in H.
  destruct H as [<- | [<- | [<- | [<- | [<- | [<- | []]]]]]];
    cbn [In]; intuition discriminate.
Qed.

Ltac explicit_case :=
  cbn [issued drawn In];
  repeat split; intros;
  repeat match goal with
         | X : exists _, _ |- _ => destruct X
         | X : _ \/ _ |- _ => destruct X
         | X : False |- _ => destruct X
         | X : ?x <> ?x |- _ => destruct (X eq_refl)
         end;
  try discriminate; auto.

(** X18.  The tests guard the actions: on a look that succeeded and could
    be read, a pass issues a sell only when the agent is alive, not in
    combat, not low on resources and the inventory counts at least 8; it
    draws a random number only when all four tests are false; and it flees
    only when the agent is alive and in combat.  So the bot never sells,
    gathers, moves, quests or asks for the status while it is dead, in
    combat or low on resources. *)
Theorem actions_follow_the_tests (w : world) (c : Z) (st : reading) :
  succeeded (look_reply w) = Ok true ->
  read (look_reply w) = Ok st ->
  ((exists t, In (action_on "sell" t) (issued (calls (cycle c) w))) ->
   is_dead st = Ok false /\ in_combat (look_reply w) = Ok false
   /\ low_resources st = Ok false /\ inventory_full st = Ok true)
  /\ (drawn (calls (cycle c) w) <> O ->
      is_dead st = Ok false /\ in_combat (look_reply w) = Ok false
      /\ low_resources st = Ok false /\ inventory_full st = Ok false)
  /\ (In (action "flee") (issued (calls (cycle c) w)) ->
      is_dead st = Ok false /\ in_combat (look_reply w) = Ok true).
Proof.
  unfold look_reply. intros Hok Hread.
  rewrite calls_cycle, Hok, calls_react, Hread.
  destruct (is_dead st) as [[|] | e]; [explicit_case | | explicit_case].
  destruct (in_combat (acts w 0%nat)) as [[|] | e];
    [explicit_case | | explicit_case].
  destruct (low_resources st) as [[|] | e]; [explicit_case | | explicit_case].
  destruct (inventory_full st) as [[|] | e]; [| | explicit_case];
    cbn [issued drawn In].
  - split; [auto|]. split.
    + rewrite drawn_sell. intros H. destruct (H eq_refl).
    + intros [H | H]; [discriminate|].
      destruct (sell_block_requests _ _ _ H) as [E | [t E]]; discriminate.
  - split; [|split].
    + intros [t [H | H]]; [discriminate|].
      destruct (random_block_never_sells _ _ _ _ H).
    + auto.
    + intros [H | H]; [discriminate|].
      destruct (random_block_never_flees _ _ _ H).
Qed.

Lemma actions_follow_the_tests_witness :
  let s := snapshot 80 100 30 "shallows" "Calm water."
             [item "kelp" 3; item "shell" 3; item "pearl" 2; item "coral" 1] in
  let w := looking_at s 0%float 0 in
  succeeded (look_reply w) = Ok true
  /\ read (look_reply w) = Ok (reading_of s)
  /\ (exists t, In (action_on "sell" t) (issued (calls (cycle 1) w)))
  /\ is_dead (reading_of s) = Ok false
  /\ in_combat (look_reply w) = Ok false
  /\ low_resources (reading_of s) = Ok false
  /\ inventory_full (reading_of s) = Ok true.
Proof.
  cbv zeta. split; [reflexivity|]. split; [reflexivity|].
  assert (H : exists t,
             In (action_on "sell" t)
               (issued (calls (cycle 1)
                  (looking_at (snapshot 80 100 30 "shallows" "Calm water."
                                 [item "kelp" 3; item "shell" 3; item "pearl" 2;
                                  item "coral" 1]) 0%float 0)))).
  { exists (JStr "kelp"). right. right. left. reflexivity. }
  split; [exact H|].
  exact (proj1 (actions_follow_the_tests
                  (looking_at (snapshot 80 100 30 "shallows" "Calm water."
                                 [item "kelp" 3; item "shell" 3; item "pearl" 2;
                                  item "coral" 1]) 0%float 0)
                  1
                  (reading_of (snapshot 80 100 30 "shallows" "Calm water."
                                 [item "kelp" 3; item "shell" 3; item "pearl" 2;
                                  item "coral" 1]))
                  eq_refl eq_refl) H).
Defined.

(** *** The pace of the whole loop *)

Lemma paused_loop (n : nat) (c : Z) (w : world) :
  paused (calls (loop n c) w) <= 71 * Z.of_nat n
  /\ (outcome (loop n c) w = Ok tt -> 12 * Z.of_nat n <= paused (calls (loop n c) w)).
Proof.
  revert c w. induction n as [| n IH]; intros c w.
  - cbn. split; [lia | intros _; lia].
  - cbn [loop]. rewrite calls_bind, outcome_bind, paused_app.
    assert (Hpass : paused (calls (cycle (c + 1)) w) <= 71
                    /\ (outcome (cycle (c + 1)) w = Ok tt ->
                        12 <= paused (calls (cycle (c + 1)) w))).
    { rewrite calls_cycle, outcome_cycle.
      change (Log ?m :: Act ?b :: Sleep (NInt 6) :: ?l)
        with ([Log m; Act b; Sleep (NInt 6)] ++ l).
      rewrite paused_app. change (paused [_; _; _]) with 6.
      destruct (succeeded (acts w 0%nat)) as [[|] | e].
      - destruct (paused_react (acts w 0%nat) (skip_act w)) as [Hmax Hmin].
        split; [lia|]. intros H. specialize (Hmin H). lia.
      - change (paused [_]) with 10. split; [lia | intros _; lia].
      - change (paused []) with 0. split; [lia | discriminate]. }
    destruct Hpass as [Hmax Hmin].
    destruct (outcome (cycle (c + 1)) w) as [[] | e].
    + destruct (IH (c + 1) (world_after (cycle (c + 1)) w)) as [Hmax' Hmin'].
      specialize (Hmin eq_refl).
      split; [lia|]. intros H. specialize (Hmin' H). lia.
    + change (paused []) with 0. split; [lia | discriminate].
Qed.

(** X19.  The pace of the loop as a whole, counting the pauses of [run]
    itself: [n] passes sleep at most [71 * n] seconds, and when they all
    end without an exception they sleep at least [12 * n] seconds: the bot
    looks at most five times a minute on average. *)
Theorem run_sleeps_12_to_71_per_pass (n : nat) (w : world) :
  paused (calls (run n) w) <= 71 * Z.of_nat n
  /\ (outcome (run n) w = Ok tt ->
      12 * Z.of_nat n <= paused (calls (run n) w)).
Proof.
  unfold run. steps.
  change (Log MsgBotStart :: ?l) with ([Log MsgBotStart] ++ l).
  rewrite paused_app. change (paused [Log MsgBotStart]) with 0.
  destruct (paused_loop n 0 w) as [Hmax Hmin].
  split; [lia|]. intros H. specialize (Hmin H). lia.
Qed.

(** *** Which reply [act] returns *)



